(** * Risk scoring, mitigation aggregation and query engine

    A shallow embedding of the score-dependent logic of two React
    components:

    - [src/components/RiskManagement.tsx]: the severity classifier
      [getRiskLevel], the list filter [filteredRisks], the summary
      [riskStats], the audit emitter [logAuditEvent] and the delete
      handler [handleDeleteRisk];
    - [src/components/AddAssetForm.tsx]: the submit handler
      [handleSubmit], which obtains a base score from the estimator,
      subtracts the applied mitigations and hands the record to [onSubmit].

    Conventions of the embedding.  JavaScript numbers that the data model
    declares to be integers (risk scores, reduction scores) are [Z].
    A [string] is a sequence of UTF-16 code units, one per character of
    the type [ascii]: the strings of the model are the JavaScript strings
    whose code units are all below 256 (Basic Latin and Latin-1
    Supplement), and a character stands for its code unit, not for a byte
    of an encoding.  On these strings [toLowerCase] acts unit by unit and
    is given in full.  The async
    handlers are written in a state-and-exception monad over an explicit
    world (remote tables, console, component state); the outcome of every
    call that leaves the component (store, estimator, dialog) is read from
    an environment record, so that each failure path of the source is a
    value of the model. *)

From Stdlib Require Import ZArith List String Ascii Bool Lia.
From Stdlib Require Import Sorted Permutation.
Import ListNotations.

Local Open Scope string_scope.
Local Open Scope Z_scope.

(** ** JavaScript string primitives *)

Module JsString.

(** [c.toLowerCase()] on one code unit below 256.  The capitals of this
    range are A-Z (65-90) and the accented capitals from 192 to 222,
    without the multiplication sign 215; each has its small form 32
    places higher.  Every other unit is its own lower case: the small
    letters, the digits and signs, and the letters without a small form
    in the range (181, 223, 255). *)
Definition lower_unit (c : ascii) : ascii :=
  let n := nat_of_ascii c in
  if ((Nat.leb 65 n && Nat.leb n 90)
      || (Nat.leb 192 n && Nat.leb n 222 && negb (Nat.eqb n 215)))%bool
  then ascii_of_nat (n + 32)
  else c.

(** [s.toLowerCase()]. *)
Fixpoint toLowerCase (s : string) : string :=
  match s with
  | EmptyString => EmptyString
  | String c s' => String (lower_unit c) (toLowerCase s')
  end.

(** [s.startsWith(p)]. *)
Fixpoint startsWith (s p : string) {struct p} : bool :=
  match p, s with
  | EmptyString, _ => true
  | String _ _, EmptyString => false
  | String a p', String b s' => (Ascii.eqb a b && startsWith s' p')%bool
  end.

(** [s.includes(t)]: [t] occurs in [s] at some position. *)
Fixpoint includes (s t : string) : bool :=
  if startsWith s t then true
  else match s with
       | EmptyString => false
       | String _ s' => includes s' t
       end.

(** [a === b] on strings. *)
Definition strict_eq (a b : string) : bool := String.eqb a b.

(** Truthiness of a string: only the empty string is falsy. *)
Definition truthy (s : string) : bool := negb (String.eqb s "").










End JsString.

(** ** Effects: state and exceptions over an explicit world *)

Module Effects.

(** A thrown or returned error value; [instanceof_Error] records whether
    [err instanceof Error] holds for it. *)
Record JsError := mkJsError {
  instanceof_Error : bool;
  message : string
}.

(** How a statement completes: normally with a value, or by a throw. *)
Inductive Completion (A : Type) : Type :=
| Normal (a : A)
| Abrupt (e : JsError).
Arguments Normal {A} a.
Arguments Abrupt {A} e.

(** Effects of a throw survive it, so the world is outside the sum. *)
Definition Eff (W A : Type) : Type := W -> Completion A * W.

Definition ret {W A} (a : A) : Eff W A := fun w => (Normal a, w).

Definition bind {W A B} (m : Eff W A) (k : A -> Eff W B) : Eff W B :=
  fun w => match m w with
           | (Normal a, w') => k a w'
           | (Abrupt e, w') => (Abrupt e, w')
           end.

Definition throw {W A} (e : JsError) : Eff W A := fun w => (Abrupt e, w).

(** [try { m } catch (e) { h e }]. *)
Definition try_catch {W A} (m : Eff W A) (h : JsError -> Eff W A) : Eff W A :=
  fun w => match m w with
           | (Normal a, w') => (Normal a, w')
           | (Abrupt e, w') => h e w'
           end.

(** [try { m } finally { f }]: [f] runs on both exits; the completion of
    [m] is kept unless [f] itself throws. *)
Definition try_finally {W A} (m : Eff W A) (f : Eff W unit) : Eff W A :=
  fun w => match m w with
           | (c, w') => match f w' with
                        | (Normal _, w'') => (c, w'')
                        | (Abrupt e, w'') => (Abrupt e, w'')
                        end
           end.

Definition modify {W} (f : W -> W) : Eff W unit := fun w => (Normal tt, f w).
Definition gets {W A} (f : W -> A) : Eff W A := fun w => (Normal (f w), w).

(** [if (c) m] with no else branch. *)
Definition when {W} (c : bool) (m : Eff W unit) : Eff W unit :=
  if c then m else ret tt.

Declare Scope eff_scope.
Delimit Scope eff_scope with eff.
Notation "x <- m ;; k" := (bind m (fun x => k))
  (at level 61, m at next level, right associativity) : eff_scope.
Notation "m ;; k" := (bind m (fun _ => k))
  (at level 61, right associativity) : eff_scope.

(** Console output. *)
Inductive Level : Type := LevelWarn | LevelError.

Record LogEntry := mkLog {
  level : Level;
  text : string;
  payload : option JsError
}.

(** Values that travel as JSON columns or payloads. *)
#[warnings="-register-all"]
Inductive Json : Type :=
| JNull
| JBool (b : bool)
| JNum (n : Z)
| JStr (s : string)
| JArr (items : list Json)
| JObj (fields : list (string * Json)).

(** [o[k]] on a JSON object: the value of the last binding of [k]. *)
Fixpoint field_of (k : string) (fields : list (string * Json)) : option Json :=
  match fields with
  | [] => None
  | (k', v) :: rest =>
      match field_of k rest with
      | Some v' => Some v'
      | None => if String.eqb k k' then Some v else None
      end
  end.

Definition get_field (k : string) (j : Json) : option Json :=
  match j with
  | JObj fields => field_of k fields
  | _ => None
  end.

(** Outcome of one call to the remote store. *)
Inductive Reply : Type :=
| Accepted
| Rejected (e : JsError)
| Thrown (e : JsError).

End Effects.

(** ** The risk list: classifier, filter, statistics, audit and delete *)

Module RiskManagement.
Import JsString Effects.
Local Open Scope eff_scope.

(** The columns of a [risks] row that the component reads. *)
Record Risk := mkRisk {
  id : string;
  title : string;
  description : string;
  category : string;
  risk_score : Z;
  status : string
}.

(** The [useState] cells of the component that the code below touches. *)
Record State := mkState {
  risks : list Risk;
  loading : bool;
  error : option string;
  searchTerm : string;
  filterCategory : string;
  filterStatus : string;
  filterRiskLevel : string;
  selectedRisk : option Risk
}.

(** The initial values given to [useState]. *)
Definition initialState : State :=
  {| risks := []; loading := true; error := None; searchTerm := "";
     filterCategory := "all"; filterStatus := "all";
     filterRiskLevel := "all"; selectedRisk := None |}.

Definition setRisks (v : list Risk) (st : State) : State :=
  mkState v (loading st) (error st) (searchTerm st) (filterCategory st)
          (filterStatus st) (filterRiskLevel st) (selectedRisk st).
Definition setLoading (v : bool) (st : State) : State :=
  mkState (risks st) v (error st) (searchTerm st) (filterCategory st)
          (filterStatus st) (filterRiskLevel st) (selectedRisk st).
Definition setError (v : option string) (st : State) : State :=
  mkState (risks st) (loading st) v (searchTerm st) (filterCategory st)
          (filterStatus st) (filterRiskLevel st) (selectedRisk st).
Definition setSearchTerm (v : string) (st : State) : State :=
  mkState (risks st) (loading st) (error st) v (filterCategory st)
          (filterStatus st) (filterRiskLevel st) (selectedRisk st).
Definition setFilterCategory (v : string) (st : State) : State :=
  mkState (risks st) (loading st) (error st) (searchTerm st) v
          (filterStatus st) (filterRiskLevel st) (selectedRisk st).
Definition setFilterStatus (v : string) (st : State) : State :=
  mkState (risks st) (loading st) (error st) (searchTerm st)
          (filterCategory st) v (filterRiskLevel st) (selectedRisk st).
Definition setFilterRiskLevel (v : string) (st : State) : State :=
  mkState (risks st) (loading st) (error st) (searchTerm st)
          (filterCategory st) (filterStatus st) v (selectedRisk st).
Definition setSelectedRisk (v : option Risk) (st : State) : State :=
  mkState (risks st) (loading st) (error st) (searchTerm st)
          (filterCategory st) (filterStatus st) (filterRiskLevel st) v.

(** *** Pure derived values *)

Definition getRiskLevel (score : Z) : string :=
  if score <=? 5 then "Low"
  else if score <=? 12 then "Medium"
  else if score <=? 20 then "High"
  else "Critical".

(** The four local constants of the filter callback. *)
Definition matchesSearch (st : State) (risk : Risk) : bool :=
  includes (toLowerCase (title risk)) (toLowerCase (searchTerm st))
  || includes (toLowerCase (description risk)) (toLowerCase (searchTerm st)).

Definition matchesCategory (st : State) (risk : Risk) : bool :=
  strict_eq (filterCategory st) "all"
  || strict_eq (category risk) (filterCategory st).

Definition matchesStatus (st : State) (risk : Risk) : bool :=
  strict_eq (filterStatus st) "all"
  || strict_eq (status risk) (filterStatus st).

Definition matchesRiskLevel (st : State) (risk : Risk) : bool :=
  if strict_eq (filterRiskLevel st) "low" then risk_score risk <=? 5
  else if strict_eq (filterRiskLevel st) "medium"
       then (5 <? risk_score risk) && (risk_score risk <=? 12)
  else if strict_eq (filterRiskLevel st) "high"
       then (12 <? risk_score risk) && (risk_score risk <=? 20)
  else if strict_eq (filterRiskLevel st) "critical"
       then 20 <? risk_score risk
  else true.

(** The value the filter callback returns. *)
Definition keepsRisk (st : State) (risk : Risk) : bool :=
  matchesSearch st risk && matchesCategory st risk
  && matchesStatus st risk && matchesRiskLevel st risk.

Definition filteredRisks (st : State) : list Risk :=
  filter (keepsRisk st) (risks st).

(** [Math.round (p / q)] for integers [p] and [q > 0]: JavaScript rounds
    to the nearest integer with halves going up, which is the floor of
    [p/q + 1/2].  The quotient of two integers of the magnitudes at hand
    (sums of scores over collections of a few thousand records) is far
    from the precision limit of a double, so the exact rational value
    decides the result. *)
Definition round_quotient (p q : Z) : Z := (2 * p + q) / (2 * q).

Record RiskStats := mkRiskStats {
  total : nat;
  critical : nat;
  high : nat;
  medium : nat;
  low : nat;
  open : nat;
  avgScore : Z
}.

(** [['closed', 'mitigated'].includes(s)]. *)
Definition closed_or_mitigated (s : string) : bool :=
  existsb (fun x => strict_eq x s) ["closed"; "mitigated"].

Definition riskStats (st : State) : RiskStats :=
  let rs := risks st in
  {| total := List.length rs;
     critical := List.length (filter (fun r => 20 <? risk_score r) rs);
     high := List.length (filter (fun r => (12 <? risk_score r)
                                           && (risk_score r <=? 20)) rs);
     medium := List.length (filter (fun r => (5 <? risk_score r)
                                             && (risk_score r <=? 12)) rs);
     low := List.length (filter (fun r => risk_score r <=? 5) rs);
     open := List.length
               (filter (fun r => negb (closed_or_mitigated (status r))) rs);
     avgScore :=
       if (0 <? List.length rs)%nat
       then round_quotient
              (fold_left (fun sum r => sum + risk_score r) rs 0)
              (Z.of_nat (List.length rs))
       else 0 |}.

(** *** The world the handlers act on *)

(** A row of the [audit_logs] table as the emitter writes it. *)
Record AuditLog := mkAuditLog {
  user_id : option string;
  organization_id : string;
  action : string;
  resource_type : string;
  resource_id : option string;
  details : option Json;
  ip_address : option string;
  user_agent : string
}.

(** The component state, the two remote tables, the rows that were handed
    to the audit table's [insert] (whether or not the write went through)
    and the console. *)
Record World := mkWorld {
  ui : State;
  risks_table : list Risk;
  audit_logs : list AuditLog;
  audit_requests : list AuditLog;
  console : list LogEntry
}.

(** What the component reads from outside itself during one handler run:
    the hooks' values, the clock, the dialog answer and the outcome of
    each store call, in the order the handler issues them. *)
Record Env := mkEnv {
  env_user_id : option string;
  env_organization_id : option string;
  env_user_agent : string;
  env_now : string;
  confirm_answer : bool;
  select_reply : Reply;
  delete_reply : Reply;
  audit_reply : Reply;
  fetch_reply : Reply
}.

Definition set_ui (f : State -> State) : Eff World unit :=
  modify (fun w => mkWorld (f (ui w)) (risks_table w) (audit_logs w)
                           (audit_requests w) (console w)).

Definition console_log (l : Level) (t : string) (e : option JsError)
  : Eff World unit :=
  modify (fun w => mkWorld (ui w) (risks_table w) (audit_logs w)
                           (audit_requests w) (console w ++ [mkLog l t e])).

(** [x || null] on an optional string: the empty string is falsy too. *)
Definition or_null (x : option string) : option string :=
  match x with
  | Some s => if truthy s then Some s else None
  | None => None
  end.

(** [supabase.from('audit_logs').insert(row)]: resolves to the [error]
    field of the response, or throws. *)
Definition insert_audit_log (r : Reply) (row : AuditLog)
  : Eff World (option JsError) :=
  modify (fun w => mkWorld (ui w) (risks_table w) (audit_logs w)
                           (audit_requests w ++ [row]) (console w)) ;;
  match r with
  | Accepted =>
      modify (fun w => mkWorld (ui w) (risks_table w)
                               (audit_logs w ++ [row])
                               (audit_requests w) (console w)) ;;
      ret None
  | Rejected e => ret (Some e)
  | Thrown e => throw e
  end.

(** The columns picked by [select('title, category, risk_score, status')]. *)
Definition snapshot_of (r : Risk) : Json :=
  JObj [("title", JStr (title r)); ("category", JStr (category r));
        ("risk_score", JNum (risk_score r)); ("status", JStr (status r))].

(** [select(...).eq('id', riskId).single()]: resolves to the [data] field,
    which is the row when exactly one matches and [null] otherwise. *)
Definition select_single (r : Reply) (riskId : string)
  : Eff World (option Json) :=
  match r with
  | Accepted =>
      rows <- gets (fun w => filter (fun x => strict_eq (id x) riskId)
                                    (risks_table w)) ;;
      match rows with
      | [row] => ret (Some (snapshot_of row))
      | _ => ret None
      end
  | Rejected _ => ret None
  | Thrown e => throw e
  end.

(** [delete().eq('id', riskId)]: resolves to the [error] field. *)
Definition delete_risk (r : Reply) (riskId : string)
  : Eff World (option JsError) :=
  match r with
  | Accepted =>
      modify (fun w => mkWorld (ui w)
                 (filter (fun x => negb (strict_eq (id x) riskId))
                         (risks_table w))
                 (audit_logs w) (audit_requests w) (console w)) ;;
      ret None
  | Rejected e => ret (Some e)
  | Thrown e => throw e
  end.

(** [select('*').order('created_at', ...)]: the table is kept in the order
    in which this read returns it. *)
Definition select_all (r : Reply)
  : Eff World (option (list Risk) * option JsError) :=
  match r with
  | Accepted => rows <- gets risks_table ;; ret (Some rows, None)
  | Rejected e => ret (None, Some e)
  | Thrown e => throw e
  end.

(** *** The handlers *)

Definition fetchRisks (env : Env) : Eff World unit :=
  try_finally
    (try_catch
       (set_ui (setLoading true) ;;
        set_ui (setError None) ;;
        res <- select_all (fetch_reply env) ;;
        match snd res with
        | Some fetchError => throw fetchError
        | None =>
            set_ui (setRisks (match fst res with
                              | Some rows => rows
                              | None => []
                              end))
        end)
       (fun err =>
          console_log LevelError "Error fetching risks:" (Some err) ;;
          set_ui (setError (Some "Failed to load risk data"))))
    (set_ui (setLoading false)).

(** The object literal the emitter passes to [insert]. *)
Definition audit_row (env : Env) (org action : string)
  (resourceId : option string) (details : option Json) : AuditLog :=
  {| user_id := or_null (env_user_id env);
     organization_id := org;
     action := action;
     resource_type := "risk";
     resource_id := resourceId;
     details := details;
     ip_address := None;
     user_agent := env_user_agent env |}.

Definition logAuditEvent (env : Env) (action : string)
  (resourceId : option string) (details : option Json) : Eff World unit :=
  match or_null (env_organization_id env) with
  | None =>
      console_log LevelWarn
        "Cannot log audit event: no organization ID available" None
  | Some org =>
      try_catch
        (error <- insert_audit_log (audit_reply env)
                    (audit_row env org action resourceId details) ;;
         match error with
         | Some e => console_log LevelError "Error logging audit event:" (Some e)
         | None => ret tt
         end)
        (fun e =>
           console_log LevelError "Unexpected error logging audit event:"
                       (Some e))
  end.

(** The [details] argument of the delete handler's audit call. *)
Definition deleted_details (env : Env) (riskTitle : string)
  (riskData : option Json) : Json :=
  JObj [("risk_title", JStr riskTitle);
        ("risk_details", match riskData with
                         | Some d => d
                         | None => JObj []
                         end);
        ("deleted_at", JStr (env_now env))].

Definition handleDeleteRisk (env : Env) (riskId riskTitle : string)
  : Eff World unit :=
  if negb (confirm_answer env) then ret tt
  else
    try_finally
      (try_catch
         (set_ui (setLoading true) ;;
          set_ui (setError None) ;;
          riskData <- select_single (select_reply env) riskId ;;
          error <- delete_risk (delete_reply env) riskId ;;
          match error with
          | Some e => throw e
          | None => ret tt
          end ;;
          logAuditEvent env "risk_deleted" (Some riskId)
            (Some (deleted_details env riskTitle riskData)) ;;
          sel <- gets (fun w => selectedRisk (ui w)) ;;
          when (match sel with
                | Some r => strict_eq (id r) riskId
                | None => false
                end)
               (set_ui (setSelectedRisk None)) ;;
          fetchRisks env)
         (fun err =>
            console_log LevelError "Error deleting risk:" (Some err) ;;
            set_ui (setError
                      (Some (if instanceof_Error err then message err
                             else "Failed to delete risk")))))
      (set_ui (setLoading false)).

(** *** Specification-level notions

    The properties below compare the code with these definitions, which
    follow the wording of the design document rather than the source. *)






(** [CountOf P l n]: exactly [n] positions of [l] hold an element with [P]. *)
Inductive CountOf {A : Type} (P : A -> Prop) : list A -> nat -> Prop :=
| CountOf_nil : CountOf P [] 0
| CountOf_hit x l n : P x -> CountOf P l n -> CountOf P (x :: l) (S n)
| CountOf_miss x l n : ~ P x -> CountOf P l n -> CountOf P (x :: l) n.

(** A record is in band [b] when the classifier says so. *)
Definition InBand (b : string) (r : Risk) : Prop :=
  getRiskLevel (risk_score r) = b.

(** A record is open when its status is neither mitigated nor closed. *)
Definition IsOpen (r : Risk) : Prop :=
  status r <> "mitigated" /\ status r <> "closed".

Fixpoint sum_scores (rs : list Risk) : Z :=
  match rs with
  | [] => 0
  | r :: rest => risk_score r + sum_scores rest
  end.

(** [m] is the mean [s / n] rounded to the nearest integer, a half going
    up: [m - 1/2 <= s/n < m + 1/2]. *)
Definition RoundedMean (s n m : Z) : Prop :=
  2 * s - n < 2 * n * m <= 2 * s + n.

(** What the snapshot read of the delete handler yields when it is issued
    on world [w]. *)
Definition pre_delete_snapshot (env : Env) (riskId : string) (w : World)
  : option Json :=
  match fst (select_single (select_reply env) riskId w) with
  | Normal d => d
  | Abrupt _ => None
  end.

(** The same run with another outcome of the audit write. *)
Definition with_audit_reply (r : Reply) (env : Env) : Env :=
  mkEnv (env_user_id env) (env_organization_id env) (env_user_agent env)
        (env_now env) (confirm_answer env) (select_reply env)
        (delete_reply env) r (fetch_reply env).

(** *** Sample data *)

Definition vendor_outage : Risk :=
  mkRisk "r1" "Vendor outage" "Primary vendor unavailable" "operational"
         12 "assessed".

Definition sample_world : World :=
  {| ui := setLoading false (setRisks [vendor_outage] initialState);
     risks_table := [vendor_outage];
     audit_logs := [];
     audit_requests := [];
     console := [] |}.

(** Every call succeeds and the user confirms; the profile carries an
    organization or not. *)
Definition sample_env (org : option string) : Env :=
  {| env_user_id := Some "u1";
     env_organization_id := org;
     env_user_agent := "agent";
     env_now := "2024-01-01T00:00:00.000Z";
     confirm_answer := true;
     select_reply := Accepted;
     delete_reply := Accepted;
     audit_reply := Accepted;
     fetch_reply := Accepted |}.

End RiskManagement.

(** ** The asset form: base score, mitigations and submit *)

Module AddAssetForm.
Import JsString Effects.
Local Open Scope eff_scope.

(** Modelled from the spec: the declaration of [AppliedMitigation] (module
    [types/mitigation]) is outside the sources at hand.  The data model
    gives each record an identifier, a description and an integer
    [applied_risk_reduction_score]; the form reads only the last. *)
Record AppliedMitigation := mkAppliedMitigation {
  mitigation_id : string;
  mitigation_description : string;
  applied_risk_reduction_score : Z
}.

Record Components := mkComponents {
  physicalSecurity : Z;
  cyberSecurity : Z;
  accessControl : Z;
  environmentalRisk : Z;
  personnelRisk : Z
}.

Record Predictions := mkPredictions {
  nextWeek : Z;
  nextMonth : Z
}.

(** The [ai_risk_score] object.  The last four properties are optional:
    [explanation] is set from the estimator's answer, the other three by
    the effective-score step of [handleSubmit]. *)
Record AiRiskScore := mkAiRiskScore {
  overall : Z;
  components : Components;
  trend : string;
  lastUpdated : string;
  confidence : Z;
  predictions : Predictions;
  explanation : option string;
  mitigationApplied : option bool;
  originalScore : option Z;
  totalRiskReduction : option Z
}.

(** What [aiService.scoreAssetRisk] resolves to, as far as it is read. *)
Record AiResult := mkAiResult {
  score : Z;
  result_components : option Components;
  result_trend : option string;
  result_confidence : Z;
  result_predictions : option Predictions;
  result_explanation : option string
}.

Record Location := mkLocation {
  address : string;
  city : string;
  country : string;
  coordinates : Z * Z
}.

Record Officer := mkOfficer {
  officer_name : string;
  email : string;
  phone : string;
  department : string
}.

(** The form state.  The sub-objects that [handleSubmit] only copies
    are kept as JSON values. *)
Record FormData := mkFormData {
  form_name : string;
  form_type : string;
  form_location : Location;
  form_status : string;
  form_personnel : Json;
  form_ai_risk_score : AiRiskScore;
  form_security_systems : Json;
  form_compliance : Json;
  form_incidents : Json;
  form_responsible_officer : Officer
}.

(** The record handed to [onSubmit]; [mitigations] is a nullable column. *)
Record AssetInsert := mkAssetInsert {
  organization_id : string;
  name : string;
  type : string;
  location : Location;
  status : string;
  personnel : Json;
  ai_risk_score : AiRiskScore;
  security_systems : Json;
  compliance : Json;
  incidents : Json;
  responsible_officer : Officer;
  mitigations : option (list AppliedMitigation)
}.

(** The initial value of the [formData] cell, up to the clock readings. *)
Definition initialFormData (today nextAudit nowIso : string) : FormData :=
  {| form_name := "";
     form_type := "building";
     form_location := mkLocation "" "" "" (0, 0);
     form_status := "secure";
     form_personnel := JObj [("current", JNum 0); ("capacity", JNum 0);
                             ("authorized", JArr [])];
     form_ai_risk_score :=
       {| overall := 25;
          components := mkComponents 20 30 15 25 20;
          trend := "stable";
          lastUpdated := nowIso;
          confidence := 85;
          predictions := mkPredictions 26 24;
          explanation := None;
          mitigationApplied := None;
          originalScore := None;
          totalRiskReduction := None |};
     form_security_systems :=
       JObj [("cctv", JObj [("status", JStr "online"); ("coverage", JNum 90)]);
             ("accessControl", JObj [("status", JStr "online"); ("zones", JNum 5)]);
             ("alarms", JObj [("status", JStr "online"); ("sensors", JNum 20)]);
             ("fireSupression", JObj [("status", JStr "online"); ("coverage", JNum 100)]);
             ("networkSecurity", JObj [("status", JStr "online"); ("threats", JNum 0)])];
     form_compliance :=
       JObj [("lastAudit", JStr today); ("nextAudit", JStr nextAudit);
             ("score", JNum 90); ("issues", JArr [])];
     form_incidents :=
       JObj [("total", JNum 0); ("lastIncident", JStr "None");
             ("severity", JStr "low")];
     form_responsible_officer := mkOfficer "" "" "" "" |}.

(** The component's own cells, the console and the calls made to the
    [onSubmit] prop. *)
Record World := mkWorld {
  loading : bool;
  error : option string;
  aiScoring : bool;
  console : list LogEntry;
  submitted : list AssetInsert
}.

Inductive EstimatorReply : Type :=
| Scored (r : AiResult)
| Failed (e : JsError).

(** What one run of [handleSubmit] reads from outside the component.
    [random_predictions] stands for the two [Math.random] draws that fill
    in the predictions when the estimator sends none. *)
Record Env := mkEnv {
  env_organization_id : option string;
  env_now : string;
  estimator_reply : EstimatorReply;
  random_predictions : Z -> Predictions;
  onSubmit_reply : option JsError
}.

Definition setLoading (v : bool) : Eff World unit :=
  modify (fun w => mkWorld v (error w) (aiScoring w) (console w) (submitted w)).
Definition setError (v : option string) : Eff World unit :=
  modify (fun w => mkWorld (loading w) v (aiScoring w) (console w) (submitted w)).
Definition setAiScoring (v : bool) : Eff World unit :=
  modify (fun w => mkWorld (loading w) (error w) v (console w) (submitted w)).
Definition console_error (t : string) (e : JsError) : Eff World unit :=
  modify (fun w => mkWorld (loading w) (error w) (aiScoring w)
                           (console w ++ [mkLog LevelError t (Some e)])
                           (submitted w)).

(** [await aiService.scoreAssetRisk(assetData)]. *)
Definition scoreAssetRisk (env : Env) : Eff World AiResult :=
  match estimator_reply env with
  | Scored r => ret r
  | Failed e => throw e
  end.

(** [await onSubmit(finalAssetData)]: the call is recorded, then the
    promise settles. *)
Definition onSubmit (env : Env) (a : AssetInsert) : Eff World unit :=
  modify (fun w => mkWorld (loading w) (error w) (aiScoring w) (console w)
                           (submitted w ++ [a])) ;;
  match onSubmit_reply env with
  | None => ret tt
  | Some e => throw e
  end.

(** [x || d] on an optional string. *)
Definition or_default (x : option string) (d : string) : string :=
  match x with
  | Some s => if truthy s then s else d
  | None => d
  end.

(** The object assigned to [aiRiskScore] when the estimator answers. *)
Definition fromAiResult (env : Env) (aiRiskScore : AiRiskScore)
  (aiResult : AiResult) : AiRiskScore :=
  {| overall := score aiResult;
     components := match result_components aiResult with
                   | Some c => c
                   | None => components aiRiskScore
                   end;
     trend := or_default (result_trend aiResult) "stable";
     lastUpdated := env_now env;
     confidence := result_confidence aiResult;
     predictions := match result_predictions aiResult with
                    | Some p => p
                    | None => random_predictions env (score aiResult)
                    end;
     explanation := result_explanation aiResult;
     mitigationApplied := None;
     originalScore := None;
     totalRiskReduction := None |}.

(** [mitigations.reduce((sum, m) => sum + m.applied_risk_reduction_score, 0)]. *)
Definition totalRiskReductionOf (ms : list AppliedMitigation) : Z :=
  fold_left (fun sum mitigation => sum + applied_risk_reduction_score mitigation)
            ms 0.

(** [Math.max(0, aiRiskScore.overall - totalRiskReduction)]. *)
Definition effectiveRiskScore (aiRiskScore : AiRiskScore)
  (ms : list AppliedMitigation) : Z :=
  Z.max 0 (overall aiRiskScore - totalRiskReductionOf ms).

Definition updatedRiskScore (aiRiskScore : AiRiskScore)
  (ms : list AppliedMitigation) : AiRiskScore :=
  {| overall := effectiveRiskScore aiRiskScore ms;
     components := components aiRiskScore;
     trend := trend aiRiskScore;
     lastUpdated := lastUpdated aiRiskScore;
     confidence := confidence aiRiskScore;
     predictions := predictions aiRiskScore;
     explanation := explanation aiRiskScore;
     mitigationApplied := Some (0 <? totalRiskReductionOf ms);
     originalScore := Some (overall aiRiskScore);
     totalRiskReduction := Some (totalRiskReductionOf ms) |}.

Definition finalAssetData (env : Env) (formData : FormData)
  (ms : list AppliedMitigation) (aiRiskScore : AiRiskScore) : AssetInsert :=
  {| organization_id := or_default (env_organization_id env) "";
     name := form_name formData;
     type := form_type formData;
     location := form_location formData;
     status := form_status formData;
     personnel := form_personnel formData;
     ai_risk_score := updatedRiskScore aiRiskScore ms;
     security_systems := form_security_systems formData;
     compliance := form_compliance formData;
     incidents := form_incidents formData;
     responsible_officer := form_responsible_officer formData;
     mitigations := if (0 <? List.length ms)%nat then Some ms else None |}.

(** The required-field test at the head of the handler. *)
Definition missing_required (formData : FormData) : bool :=
  negb (truthy (form_name formData))
  || negb (truthy (city (form_location formData)))
  || negb (truthy (country (form_location formData)))
  || negb (truthy (officer_name (form_responsible_officer formData))).

Definition handleSubmit (env : Env) (formData : FormData)
  (ms : list AppliedMitigation) : Eff World unit :=
  setLoading true ;;
  setError None ;;
  try_finally
    (try_catch
       (when (missing_required formData)
             (throw (mkJsError true "Please fill in all required fields")) ;;
        setAiScoring true ;;
        aiRiskScore <-
          try_finally
            (try_catch
               (aiResult <- scoreAssetRisk env ;;
                ret (fromAiResult env (form_ai_risk_score formData) aiResult))
               (fun aiError =>
                  console_error "Error getting AI risk score:" aiError ;;
                  ret (form_ai_risk_score formData)))
            (setAiScoring false) ;;
        onSubmit env (finalAssetData env formData ms aiRiskScore))
       (fun err =>
          setError (Some (if instanceof_Error err then message err
                          else "Failed to add asset"))))
    (setLoading false).

(** *** Specification-level notions *)

(** The sum of the reduction values of a mitigation sequence. *)
Fixpoint sum_reductions (ms : list AppliedMitigation) : Z :=
  match ms with
  | [] => 0
  | m :: rest => applied_risk_reduction_score m + sum_reductions rest
  end.

(** The value of the local [aiRiskScore] after the estimator step. *)
Definition baseScoreOf (env : Env) (formData : FormData) : AiRiskScore :=
  match estimator_reply env with
  | Scored r => fromAiResult env (form_ai_risk_score formData) r
  | Failed _ => form_ai_risk_score formData
  end.

(** The message the outer handler stores for a caught value. *)
Definition error_text (err : JsError) : string :=
  if instanceof_Error err then message err else "Failed to add asset".

(** The records one run of the handler passes to [onSubmit]. *)
Definition submittedBy (env : Env) (formData : FormData)
  (ms : list AppliedMitigation) (w : World) : list AssetInsert :=
  skipn (List.length (submitted w))
        (submitted (snd (handleSubmit env formData ms w))).

(** *** Sample data *)

Definition sample_form : FormData :=
  let f := initialFormData "2024-01-01" "2024-03-31"
                           "2024-01-01T00:00:00.000Z" in
  {| form_name := "Depot";
     form_type := form_type f;
     form_location := mkLocation "1 Main St" "Oslo" "Norway" (0, 0);
     form_status := form_status f;
     form_personnel := form_personnel f;
     form_ai_risk_score := form_ai_risk_score f;
     form_security_systems := form_security_systems f;
     form_compliance := form_compliance f;
     form_incidents := form_incidents f;
     form_responsible_officer := mkOfficer "A. Berg" "" "" "" |}.

Definition sample_world : World :=
  {| loading := false; error := None; aiScoring := false;
     console := []; submitted := [] |}.

Definition sample_env (reply : EstimatorReply) : Env :=
  {| env_organization_id := Some "org-1";
     env_now := "2024-01-01T00:00:00.000Z";
     estimator_reply := reply;
     random_predictions := fun s => mkPredictions s s;
     onSubmit_reply := None |}.

Definition estimator_down : JsError := mkJsError true "estimator unreachable".

End AddAssetForm.

(** ** Variations of the environment of the risk handlers *)

Module RiskEnv.
Import Effects RiskManagement.

Definition with_confirm (b : bool) (env : Env) : Env :=
  mkEnv (env_user_id env) (env_organization_id env) (env_user_agent env)
        (env_now env) b (select_reply env) (delete_reply env)
        (audit_reply env) (fetch_reply env).

Definition with_select_reply (r : Reply) (env : Env) : Env :=
  mkEnv (env_user_id env) (env_organization_id env) (env_user_agent env)
        (env_now env) (confirm_answer env) r (delete_reply env)
        (audit_reply env) (fetch_reply env).

Definition with_delete_reply (r : Reply) (env : Env) : Env :=
  mkEnv (env_user_id env) (env_organization_id env) (env_user_agent env)
        (env_now env) (confirm_answer env) (select_reply env) r
        (audit_reply env) (fetch_reply env).

Definition with_fetch_reply (r : Reply) (env : Env) : Env :=
  mkEnv (env_user_id env) (env_organization_id env) (env_user_agent env)
        (env_now env) (confirm_answer env) (select_reply env)
        (delete_reply env) (audit_reply env) r.

Definition store_down : JsError := mkJsError true "store unavailable".

End RiskEnv.

(** ** The risk table: colours, sort order and column headers *)

Module RiskTable.
Import JsString Effects RiskManagement.

Definition getRiskLevelColor (score : Z) : string :=
  if score <=? 5 then "text-green-600 bg-green-100 border-green-200"
  else if score <=? 12 then "text-yellow-600 bg-yellow-100 border-yellow-200"
  else if score <=? 20 then "text-orange-600 bg-orange-100 border-orange-200"
  else "text-red-600 bg-red-100 border-red-200".

(** ['asc' | 'desc']. *)
Inductive Direction : Type := asc | desc.

(** The two [useState] cells of the sort order. *)
Record SortState := mkSortState {
  sortField : string;
  sortDirection : Direction
}.

Definition initialSort : SortState := mkSortState "risk_score" desc.

(** The value of [a[sortField]].  [Risk] carries six columns of the row;
    a name that is none of them reads [undefined] here.  The column
    headers pass title, category, risk_score and status. *)
Inductive FieldValue : Type :=
| VString (s : string)
| VNumber (n : Z)
| VUndefined.

Definition field (f : string) (r : Risk) : FieldValue :=
  if strict_eq f "id" then VString (id r)
  else if strict_eq f "title" then VString (title r)
  else if strict_eq f "description" then VString (description r)
  else if strict_eq f "category" then VString (category r)
  else if strict_eq f "risk_score" then VNumber (risk_score r)
  else if strict_eq f "status" then VString (status r)
  else VUndefined.

(** [x < y] on two values read from the same column: strings compare by
    code units, numbers numerically, and [undefined < undefined] is
    false.  The comparator never meets two values of different kinds. *)
Definition js_lt (x y : FieldValue) : bool :=
  match x, y with
  | VString a, VString b => String.ltb a b
  | VNumber a, VNumber b => a <? b
  | _, _ => false
  end.

(** The comparator handed to [sort]. *)
Definition compareRisks (s : SortState) (a b : Risk) : Z :=
  let aValue := field (sortField s) a in
  let bValue := field (sortField s) b in
  match sortDirection s with
  | asc => if js_lt aValue bValue then -1
           else if js_lt bValue aValue then 1 else 0
  | desc => if js_lt bValue aValue then -1
            else if js_lt aValue bValue then 1 else 0
  end.

(** [Array.prototype.sort] with a comparator.  For a consistent comparator
    the language fixes the result: the arrangement in comparator order in
    which elements that compare equal keep their relative order.  It is
    computed here by insertion from the right. *)
Fixpoint insert_by {A : Type} (cmp : A -> A -> Z) (x : A) (l : list A)
  : list A :=
  match l with
  | [] => [x]
  | y :: l' => if cmp x y <=? 0 then x :: y :: l'
               else y :: insert_by cmp x l'
  end.

Definition array_sort {A : Type} (cmp : A -> A -> Z) (l : list A) : list A :=
  fold_right (insert_by cmp) [] l.

Definition sortedRisks (s : SortState) (st : State) : list Risk :=
  array_sort (compareRisks s) (filteredRisks st).

Definition handleSort (f : string) (s : SortState) : SortState :=
  if strict_eq (sortField s) f
  then mkSortState (sortField s)
                   (match sortDirection s with
                    | asc => desc
                    | desc => asc
                    end)
  else mkSortState f desc.

(** *** Specification-level notions *)

(** The key of [a] does not come after the key of [b] in direction [d]. *)
Definition InOrder (f : string) (d : Direction) (a b : Risk) : Prop :=
  match d with
  | asc => js_lt (field f b) (field f a) = false
  | desc => js_lt (field f a) (field f b) = false
  end.

(** *** Sample data *)

Definition data_loss : Risk :=
  mkRisk "r2" "Data loss" "Backups not restorable" "technical" 20
         "identified".

Definition sample_state : State :=
  setLoading false (setRisks [vendor_outage; data_loss] initialState).

End RiskTable.

(** ** Creating and updating risks *)

Module RiskMutations.
Import JsString Effects RiskManagement.
Local Open Scope eff_scope.

(** Truthiness of a JSON value, for [x || y]. *)
Definition json_truthy (j : Json) : bool :=
  match j with
  | JNull => false
  | JBool b => b
  | JNum n => negb (n =? 0)
  | JStr s => truthy s
  | JArr _ => true
  | JObj _ => true
  end.

(** [formData.k || s || null] where [s] is an optional string. *)
Definition field_or_string_or_null (formData : Json) (k : string)
  (s : option string) : Json :=
  match get_field k formData with
  | Some v => if json_truthy v then v
              else match or_null s with
                   | Some x => JStr x
                   | None => JNull
                   end
  | None => match or_null s with
            | Some x => JStr x
            | None => JNull
            end
  end.

(** The cells of the two form dialogs. *)
Record Forms := mkForms {
  showAddForm : bool;
  showEditForm : bool;
  editingRisk : option Risk
}.

(** The object passed to [insert]: the form data spread first, then the
    four properties the handler sets. *)
Record RiskInsertData := mkRiskInsertData {
  insert_formData : Json;
  insert_organization_id : string;
  insert_identified_by_user_id : option string;
  insert_owner_user_id : Json;
  insert_department : Json
}.

(** The object passed to [update]: the form data spread first, then the
    two properties the handler sets; [organization_id] is [undefined]
    when the profile has none. *)
Record RiskUpdateData := mkRiskUpdateData {
  update_formData : Json;
  update_organization_id : option string;
  update_last_reviewed_at : string
}.

(** What was sent to the [risks] table. *)
Inductive RiskWrite : Type :=
| InsertRisk (data : RiskInsertData)
| UpdateRisk (riskId : string) (data : RiskUpdateData).

(** The list page: the world of the delete handler, the dialog cells and
    the writes sent to the [risks] table. *)
Record PageWorld := mkPageWorld {
  page : World;
  forms : Forms;
  risk_writes : list RiskWrite
}.

(** The response of [insert(...).select().single()] and of
    [update(...).eq(...).select().single()]: the [data] and [error]
    fields, or a throw. *)
Inductive WriteReply : Type :=
| Responded (data : option Risk) (error : option JsError)
| WriteThrown (e : JsError).

(** What one run of a write handler reads from outside the component:
    the environment of the other handlers, the profile's department and
    the outcome of the write. *)
Record WriteEnv := mkWriteEnv {
  base_env : Env;
  env_department : option string;
  write_reply : WriteReply
}.

(** A computation on the inner world, run on the page. *)
Definition on_page {A : Type} (m : Eff World A) : Eff PageWorld A :=
  fun pw => match m (page pw) with
            | (c, w') => (c, mkPageWorld w' (forms pw) (risk_writes pw))
            end.

Definition set_forms (f : Forms -> Forms) : Eff PageWorld unit :=
  modify (fun pw => mkPageWorld (page pw) (f (forms pw)) (risk_writes pw)).

Definition setShowAddForm (v : bool) (f : Forms) : Forms :=
  mkForms v (showEditForm f) (editingRisk f).
Definition setShowEditForm (v : bool) (f : Forms) : Forms :=
  mkForms (showAddForm f) v (editingRisk f).
Definition setEditingRisk (v : option Risk) (f : Forms) : Forms :=
  mkForms (showAddForm f) (showEditForm f) v.

Definition set_table (t : list Risk) (w : World) : World :=
  mkWorld (ui w) t (audit_logs w) (audit_requests w) (console w).

(** [insert([riskData]).select().single()]: the write is sent; when the
    store answers with a row and no error, that row is the newest of the
    table. *)
Definition insert_risk (r : WriteReply) (riskData : RiskInsertData)
  : Eff PageWorld (option Risk * option JsError) :=
  modify (fun pw => mkPageWorld (page pw) (forms pw)
                      (risk_writes pw ++ [InsertRisk riskData])) ;;
  match r with
  | Responded (Some row) None =>
      on_page (modify (fun w => set_table (row :: risks_table w) w)) ;;
      ret (Some row, None)
  | Responded data error => ret (data, error)
  | WriteThrown e => throw e
  end.

(** [update(updateData).eq('id', riskId).select().single()]: the write is
    sent; when the store answers with a row and no error, that row stands
    in the table for the rows of that id. *)
Definition update_risk (r : WriteReply) (riskId : string)
  (updateData : RiskUpdateData)
  : Eff PageWorld (option Risk * option JsError) :=
  modify (fun pw => mkPageWorld (page pw) (forms pw)
                      (risk_writes pw ++ [UpdateRisk riskId updateData])) ;;
  match r with
  | Responded (Some row) None =>
      on_page (modify (fun w =>
        set_table (map (fun x => if strict_eq (id x) riskId then row else x)
                       (risks_table w)) w)) ;;
      ret (Some row, None)
  | Responded data error => ret (data, error)
  | WriteThrown e => throw e
  end.

Definition openEditForm (risk : Risk) : Eff PageWorld unit :=
  set_forms (setEditingRisk (Some risk)) ;;
  set_forms (setShowEditForm true).

(** The object built as [riskData]. *)
Definition riskData_of (wenv : WriteEnv) (formData : Json) : RiskInsertData :=
  {| insert_formData := formData;
     insert_organization_id :=
       match or_null (env_organization_id (base_env wenv)) with
       | Some o => o
       | None => ""
       end;
     insert_identified_by_user_id := or_null (env_user_id (base_env wenv));
     insert_owner_user_id :=
       field_or_string_or_null formData "owner_user_id"
                               (env_user_id (base_env wenv));
     insert_department :=
       field_or_string_or_null formData "department" (env_department wenv) |}.

(** The [details] of the two audit calls. *)
Definition created_details (data : Risk) : Json :=
  JObj [("risk_title", JStr (title data));
        ("risk_category", JStr (category data));
        ("risk_score", JNum (risk_score data))].

Definition updated_details (editing data : Risk) : Json :=
  JObj [("risk_title", JStr (title data));
        ("risk_category", JStr (category data));
        ("risk_score", JNum (risk_score data));
        ("previous_status", JStr (status editing));
        ("new_status", JStr (status data))].

Definition handleCreateRisk (wenv : WriteEnv) (formData : Json)
  : Eff PageWorld unit :=
  try_finally
    (try_catch
       (on_page (set_ui (setLoading true)) ;;
        on_page (set_ui (setError None)) ;;
        res <- insert_risk (write_reply wenv) (riskData_of wenv formData) ;;
        match snd res with
        | Some error => throw error
        | None => ret tt
        end ;;
        match fst res with
        | Some data =>
            on_page (logAuditEvent (base_env wenv) "risk_created"
                       (Some (id data)) (Some (created_details data)))
        | None => ret tt
        end ;;
        on_page (fetchRisks (base_env wenv)) ;;
        set_forms (setShowAddForm false))
       (fun err =>
          on_page (console_log LevelError "Error adding risk:" (Some err)) ;;
          throw err))
    (on_page (set_ui (setLoading false))).

Definition handleUpdateRisk (wenv : WriteEnv) (formData : Json)
  : Eff PageWorld unit :=
  editing <- gets (fun pw => editingRisk (forms pw)) ;;
  match editing with
  | None => ret tt
  | Some editingRisk =>
      try_finally
        (try_catch
           (on_page (set_ui (setLoading true)) ;;
            on_page (set_ui (setError None)) ;;
            res <- update_risk (write_reply wenv) (id editingRisk)
                     {| update_formData := formData;
                        update_organization_id :=
                          env_organization_id (base_env wenv);
                        update_last_reviewed_at := env_now (base_env wenv) |} ;;
            match snd res with
            | Some error => throw error
            | None => ret tt
            end ;;
            match fst res with
            | Some data =>
                on_page (logAuditEvent (base_env wenv) "risk_updated"
                           (Some (id data))
                           (Some (updated_details editingRisk data)))
            | None => ret tt
            end ;;
            on_page (fetchRisks (base_env wenv)) ;;
            set_forms (setShowEditForm false) ;;
            set_forms (setEditingRisk None))
           (fun err =>
              on_page (console_log LevelError "Error updating risk:"
                                   (Some err)) ;;
              throw err))
        (on_page (set_ui (setLoading false)))
  end.

(** *** Sample data *)

Definition sample_page : PageWorld :=
  mkPageWorld sample_world (mkForms true false None) [].

Definition sample_form : Json :=
  JObj [("title", JStr "Data loss");
        ("description", JStr "Backups not restorable");
        ("category", JStr "technical");
        ("risk_score", JNum 20);
        ("status", JStr "identified")].

Definition stored_row : Risk :=
  mkRisk "r2" "Data loss" "Backups not restorable" "technical" 20
         "identified".

Definition mitigated_row : Risk :=
  mkRisk "r1" "Vendor outage" "Primary vendor unavailable" "operational"
         12 "mitigated".

Definition sample_write_env (org : option string) (r : WriteReply) : WriteEnv :=
  mkWriteEnv (sample_env org) (Some "Security Operations") r.

Definition write_rejected : JsError := mkJsError false "row violates policy".

End RiskMutations.

(** ** Variations of the environment of the asset form *)

Module AddAssetFormEnv.
Import Effects AddAssetForm.

Definition with_onSubmit_reply (r : option JsError) (env : Env) : Env :=
  mkEnv (env_organization_id env) (env_now env) (estimator_reply env)
        (random_predictions env) r.

Definition with_name (n : string) (formData : FormData) : FormData :=
  mkFormData n (form_type formData) (form_location formData)
             (form_status formData) (form_personnel formData)
             (form_ai_risk_score formData) (form_security_systems formData)
             (form_compliance formData) (form_incidents formData)
             (form_responsible_officer formData).

Definition sample_result : AiResult :=
  mkAiResult 40 None (Some "") 70 None (Some "perimeter gaps").

Definition fence : AppliedMitigation := mkAppliedMitigation "m1" "Fence" 15.
Definition patrol : AppliedMitigation := mkAppliedMitigation "m2" "Patrol" 10.

Definition submit_refused : JsError := mkJsError false "insert refused".

End AddAssetFormEnv.

(** ** The asset form: authorized personnel *)

Module AssetPersonnel.
Import JsString.

(** A row of [personnel_details] as the form reads it. *)
Record PersonnelDetail := mkPersonnelDetail {
  person_id : string;
  person_name : string;
  employee_id : string;
  person_department : string;
  current_location : string * string
}.

(** [authorized.includes(x)] on an array of ids. *)
Definition includes_id (authorized : list string) (x : string) : bool :=
  existsb (fun y => strict_eq y x) authorized.

(** The persons offered by the search box: those matching the term in
    name, employee id or department that are not yet authorized.
    [authorized] is [formData.personnel.authorized]. *)
Definition filteredPersonnel (allPersonnel : list PersonnelDetail)
  (personnelSearchTerm : string) (authorized : list string)
  : list PersonnelDetail :=
  filter
    (fun person =>
       let matchesSearch :=
         includes (toLowerCase (person_name person))
                  (toLowerCase personnelSearchTerm)
         || includes (toLowerCase (employee_id person))
                     (toLowerCase personnelSearchTerm)
         || includes (toLowerCase (person_department person))
                     (toLowerCase personnelSearchTerm) in
       let isNotSelected := negb (includes_id authorized (person_id person)) in
       matchesSearch && isNotSelected)
    allPersonnel.

Definition selectedPersonnel (allPersonnel : list PersonnelDetail)
  (authorized : list string) : list PersonnelDetail :=
  filter (fun person => includes_id authorized (person_id person))
         allPersonnel.

(** The value [addPersonnel] stores at [personnel.authorized]. *)
Definition addPersonnel (personnelId : string) (authorized : list string)
  : list string :=
  authorized ++ [personnelId].

(** The value [removePersonnel] stores at [personnel.authorized]. *)
Definition removePersonnel (personnelId : string) (authorized : list string)
  : list string :=
  filter (fun x => negb (strict_eq x personnelId)) authorized.

(** *** Sample data *)

Definition guard_a : PersonnelDetail :=
  mkPersonnelDetail "p1" "Ada Berg" "E-100" "Physical Security"
                    ("Oslo", "Norway").

Definition guard_b : PersonnelDetail :=
  mkPersonnelDetail "p2" "Bo Lind" "E-200" "IT Security"
                    ("Bergen", "Norway").

End AssetPersonnel.

(** ** The route guard *)

Module ProtectedRoute.
Import JsString.

(** A React node, as far as its truthiness goes: an element is truthy, a
    text is truthy unless empty. *)
Inductive Node : Type :=
| Element (name : string)
| Text (s : string).

Definition node_truthy (n : option Node) : bool :=
  match n with
  | Some (Element _) => true
  | Some (Text s) => truthy s
  | None => false
  end.

(** [string | string[]]. *)
Inductive RoleSpec : Type :=
| OneRole (r : string)
| AnyRole (rs : list string).

(** An array is truthy even when empty. *)
Definition role_truthy (r : option RoleSpec) : bool :=
  match r with
  | Some (OneRole s) => truthy s
  | Some (AnyRole _) => true
  | None => false
  end.

Definition string_truthy (s : option string) : bool :=
  match s with
  | Some x => truthy x
  | None => false
  end.

Record ProtectedRouteProps := mkProps {
  children : Node;
  requiredPermission : option string;
  requiredRole : option RoleSpec;
  fallback : option Node
}.

Record Profile := mkProfile {
  account_locked_until : option string
}.

(** What [useAuth] returns, as far as the guard reads it. *)
Record Auth := mkAuth {
  user : option string;
  profile : option Profile;
  loading : bool;
  hasPermission : string -> bool;
  hasRole : RoleSpec -> bool
}.

(** [new Date(s)] as a time value, [None] for an invalid date, and the
    time value of [new Date()]. *)
Record Clock := mkClock {
  parse_date : string -> option Z;
  now : Z
}.

(** What the component returns. *)
Inductive View : Type :=
| LoadingScreen
| NavigateToLogin (from : string)
| ProfileSetup
| AccountLocked
| Fallback (n : Node)
| PermissionDenied
| RoleDenied
| Children (n : Node).

(** [profile.account_locked_until && new Date(...) > new Date()]; a
    comparison with an invalid date is false. *)
Definition account_locked (clock : Clock) (p : Profile) : bool :=
  match account_locked_until p with
  | Some s =>
      truthy s
      && match parse_date clock s with
         | Some t => now clock <? t
         | None => false
         end
  | None => false
  end.

Definition ProtectedRoute (props : ProtectedRouteProps) (auth : Auth)
  (clock : Clock) (location : string) : View :=
  if loading auth then LoadingScreen
  else match user auth with
  | None => NavigateToLogin location
  | Some _ =>
    match profile auth with
    | None => ProfileSetup
    | Some p =>
      if account_locked clock p then AccountLocked
      else if string_truthy (requiredPermission props)
              && negb (match requiredPermission props with
                       | Some perm => hasPermission auth perm
                       | None => false
                       end)
      then match fallback props with
           | Some n => if node_truthy (Some n) then Fallback n
                       else PermissionDenied
           | None => PermissionDenied
           end
      else if role_truthy (requiredRole props)
              && negb (match requiredRole props with
                       | Some r => hasRole auth r
                       | None => false
                       end)
      then match fallback props with
           | Some n => if node_truthy (Some n) then Fallback n
                       else RoleDenied
           | None => RoleDenied
           end
      else Children (children props)
    end
  end.

(** *** Specification-level notions *)

(** A requirement binds only when it is given and truthy. *)
Definition PermissionOk (props : ProtectedRouteProps) (auth : Auth) : Prop :=
  forall perm, requiredPermission props = Some perm -> perm <> "" ->
               hasPermission auth perm = true.

Definition RoleOk (props : ProtectedRouteProps) (auth : Auth) : Prop :=
  forall r, requiredRole props = Some r ->
            (forall s, r = OneRole s -> s <> "") ->
            hasRole auth r = true.

(** The lock date is given, readable and strictly later than now. *)
Definition LockedAt (clock : Clock) (p : Profile) : Prop :=
  exists s t, account_locked_until p = Some s /\ s <> ""
              /\ parse_date clock s = Some t /\ now clock < t.

(** *** Sample data *)

Definition epoch_clock (t : Z) : Clock :=
  mkClock (fun s => if String.eqb s "later" then Some 100
                    else if String.eqb s "earlier" then Some 10
                    else None) t.

Definition member (lock : option string) : Auth :=
  mkAuth (Some "u1") (Some (mkProfile lock)) false
         (fun perm => String.eqb perm "risks.read")
         (fun r => match r with
                   | OneRole s => String.eqb s "analyst"
                   | AnyRole rs => existsb (String.eqb "analyst") rs
                   end).

End ProtectedRoute.

(** * Properties *)

(** ** String primitives against their specification *)

Module JsStringFacts.
Import JsString.



Lemma includes_empty (s : string) : includes s "" = true.
Proof. destruct s; reflexivity. Qed.

Lemma strict_eq_iff (a b : string) : strict_eq a b = true <-> a = b.
Proof. apply String.eqb_eq. Qed.

Lemma strict_eq_false_iff (a b : string) : strict_eq a b = false <-> a <> b.
Proof. apply String.eqb_neq. Qed.

(** *** Lower-casing against equality up to letter case *)









(** A capital accented letter, given by its code unit, is found by its
    small form. *)
Example includes_lower_accented :
  includes (toLowerCase (String (ascii_of_nat 201) "COLE fire drill"))
           (toLowerCase (String (ascii_of_nat 233) "cole")) = true
  /\ includes (toLowerCase "Vendor OUTAGE") (toLowerCase "outage") = true
  /\ includes (toLowerCase "Vendor outage") (toLowerCase "zzz") = false.
Proof. repeat split. Qed.

End JsStringFacts.

(** ** The risk list *)

Module RiskManagementFacts.
Import JsString JsStringFacts Effects RiskManagement.
Local Open Scope list_scope.

(** *** Reflection of the filter's boolean tests *)






(** *** Counting *)

Lemma CountOf_filter {A} (P : A -> Prop) (f : A -> bool) (l : list A) :
  (forall x, f x = true <-> P x) ->
  CountOf P l (List.length (filter f l)).
Proof.
  intros Hf. induction l as [|x l IH]; simpl.
  - constructor.
  - destruct (f x) eqn:E; simpl.
    + apply CountOf_hit; [now apply Hf | exact IH].
    + apply CountOf_miss; [| exact IH].
      intros HP. apply Hf in HP. congruence.
Qed.

Lemma CountOf_functional {A} (P : A -> Prop) (l : list A) n m :
  CountOf P l n -> CountOf P l m -> n = m.
Proof.
  intros Hn. revert m.
  induction Hn as [|x l n Hx _ IH|x l n Hx _ IH]; intros m Hm;
    inversion Hm; subst; try contradiction; auto.
Qed.

Lemma fold_left_sum_scores (rs : list Risk) (acc : Z) :
  fold_left (fun sum r => sum + risk_score r) rs acc = acc + sum_scores rs.
Proof.
  revert acc; induction rs as [|r rs IH]; intros acc; simpl.
  - lia.
  - rewrite IH. lia.
Qed.

Lemma round_quotient_nearest (p q : Z) :
  0 < q -> RoundedMean p q (round_quotient p q).
Proof.
  intros Hq. unfold RoundedMean, round_quotient.
  pose proof (Z.div_mod (2 * p + q) (2 * q)) as Hdm.
  pose proof (Z.mod_pos_bound (2 * p + q) (2 * q)) as Hb.
  nia.
Qed.

Lemma band_counts_partition (rs : list Risk) :
  (List.length (filter (fun r => risk_score r <=? 5)%Z rs)
   + List.length (filter (fun r => (5 <? risk_score r)
                                   && (risk_score r <=? 12))%Z rs)
   + List.length (filter (fun r => (12 <? risk_score r)
                                   && (risk_score r <=? 20))%Z rs)
   + List.length (filter (fun r => 20 <? risk_score r)%Z rs)
   = List.length rs)%nat.
Proof.
  induction rs as [|r rs IH]; simpl; [reflexivity |].
  destruct (Z.leb_spec (risk_score r) 5), (Z.ltb_spec 5 (risk_score r)),
    (Z.leb_spec (risk_score r) 12), (Z.ltb_spec 12 (risk_score r)),
    (Z.leb_spec (risk_score r) 20), (Z.ltb_spec 20 (risk_score r));
    simpl; lia.
Qed.

(** *** The classifier *)

(** C2.  The severity classifier is a total function of the integer
    score whose value is one of the four levels, and it returns Low
    exactly for scores up to 5, Medium exactly for 6 to 12, High exactly
    for 13 to 20 and Critical exactly for 21 and above, with no upper
    limit. *)
Theorem getRiskLevel_bands (s : Z) :
  In (getRiskLevel s) ["Low"; "Medium"; "High"; "Critical"]
  /\ (getRiskLevel s = "Low" <-> s <= 5)
  /\ (getRiskLevel s = "Medium" <-> 6 <= s <= 12)
  /\ (getRiskLevel s = "High" <-> 13 <= s <= 20)
  /\ (getRiskLevel s = "Critical" <-> 21 <= s).
Proof.
  unfold getRiskLevel.
  destruct (Z.leb_spec s 5); [|destruct (Z.leb_spec s 12);
                                [|destruct (Z.leb_spec s 20)]];
    simpl; repeat split; intros; try discriminate; try lia; auto.
Qed.

(** *** The filter *)


(** *** The statistics *)

(** C4.  The summary is a function of the whole collection and does not
    change with the filter controls; the total is the size of the
    collection and the four band counts add up to it; the open count is
    the number of records whose status is neither mitigated nor closed;
    the average is 0 on the empty collection and otherwise the mean of
    the scores rounded to the nearest integer; scores 5, 15 and 25 give
    15. *)
Theorem riskStats_summary (st : State) :
  (forall s c t l,
      riskStats (setSearchTerm s (setFilterCategory c
                   (setFilterStatus t (setFilterRiskLevel l st))))
      = riskStats st)
  /\ total (riskStats st) = List.length (risks st)
  /\ (low (riskStats st) + medium (riskStats st) + high (riskStats st)
      + critical (riskStats st) = total (riskStats st))%nat
  /\ CountOf IsOpen (risks st) (open (riskStats st))
  /\ ((risks st = [] /\ avgScore (riskStats st) = 0)
      \/ (risks st <> []
          /\ RoundedMean (sum_scores (risks st))
                         (Z.of_nat (List.length (risks st)))
                         (avgScore (riskStats st))))
  /\ (forall i t d c s,
         avgScore (riskStats
                     (setRisks (map (fun x => mkRisk i t d c x s)
                                    [5; 15; 25]) st)) = 15).
Proof.
  split; [|split; [|split; [|split; [|split]]]].
  - reflexivity.
  - reflexivity.
  - apply band_counts_partition.
  - apply CountOf_filter. intros r. unfold IsOpen, closed_or_mitigated.
    unfold existsb, strict_eq.
    rewrite negb_true_iff, !orb_false_iff, !String.eqb_neq.
    split; [intros (H1 & H2 & _) | intros [H1 H2]]; repeat split;
      congruence.
  - unfold riskStats. simpl. destruct (risks st) as [|r rs] eqn:E.
    + left. now split.
    + right. split; [discriminate |].
      change (0 <? List.length (r :: rs))%nat with true. cbv iota.
      rewrite fold_left_sum_scores, Z.add_0_l.
      apply round_quotient_nearest. simpl List.length. lia.
  - reflexivity.
Qed.

(** *** Agreement of the three threshold sets *)

(** C10.  The risk-level filter with tag low, medium, high or critical
    keeps a record exactly when the classifier puts its score in Low,
    Medium, High or Critical respectively, and each band count of the
    summary is the number of records the classifier puts in that band. *)
Theorem band_thresholds_agree (st : State) (r : Risk) :
  (matchesRiskLevel (setFilterRiskLevel "low" st) r = true
   <-> getRiskLevel (risk_score r) = "Low")
  /\ (matchesRiskLevel (setFilterRiskLevel "medium" st) r = true
      <-> getRiskLevel (risk_score r) = "Medium")
  /\ (matchesRiskLevel (setFilterRiskLevel "high" st) r = true
      <-> getRiskLevel (risk_score r) = "High")
  /\ (matchesRiskLevel (setFilterRiskLevel "critical" st) r = true
      <-> getRiskLevel (risk_score r) = "Critical")
  /\ CountOf (InBand "Low") (risks st) (low (riskStats st))
  /\ CountOf (InBand "Medium") (risks st) (medium (riskStats st))
  /\ CountOf (InBand "High") (risks st) (high (riskStats st))
  /\ CountOf (InBand "Critical") (risks st) (critical (riskStats st)).
Proof.
  assert (Hband : forall x : Risk,
             ((risk_score x <=? 5) = true <-> InBand "Low" x)
             /\ ((5 <? risk_score x) && (risk_score x <=? 12) = true
                 <-> InBand "Medium" x)
             /\ ((12 <? risk_score x) && (risk_score x <=? 20) = true
                 <-> InBand "High" x)
             /\ ((20 <? risk_score x) = true <-> InBand "Critical" x)).
  { intros x. unfold InBand, getRiskLevel.
    destruct (Z.leb_spec (risk_score x) 5), (Z.ltb_spec 5 (risk_score x)),
      (Z.leb_spec (risk_score x) 12), (Z.ltb_spec 12 (risk_score x)),
      (Z.leb_spec (risk_score x) 20), (Z.ltb_spec 20 (risk_score x));
      try lia; simpl; repeat split; intros; try discriminate; auto. }
  unfold matchesRiskLevel; simpl.
  destruct (Hband r) as (H1 & H2 & H3 & H4).
  repeat split; try (apply H1 || apply H2 || apply H3 || apply H4);
    try (apply CountOf_filter; intros x; apply (Hband x)).
Qed.

(** *** The audit emitter *)

(** C9.  The emitter always returns normally and the caller's next step
    always runs; it leaves the component state and the risks table as
    they were.  With no organization scope it hands nothing to the audit
    store and prints one warning.  With a scope it hands over one row;
    if the store rejects the write or the call throws, nothing is
    persisted and the failure is printed to the console as an error. *)
Theorem logAuditEvent_contained (env : Env) (action : string)
  (resourceId : option string) (details : option Json) (w : World) :
  fst (logAuditEvent env action resourceId details w) = Normal tt
  /\ (forall (B : Type) (k : unit -> Eff World B),
         bind (logAuditEvent env action resourceId details) k w
         = k tt (snd (logAuditEvent env action resourceId details w)))
  /\ ui (snd (logAuditEvent env action resourceId details w)) = ui w
  /\ risks_table (snd (logAuditEvent env action resourceId details w))
     = risks_table w
  /\ match or_null (env_organization_id env) with
     | None =>
         audit_requests (snd (logAuditEvent env action resourceId details w))
         = audit_requests w
         /\ audit_logs (snd (logAuditEvent env action resourceId details w))
            = audit_logs w
         /\ console (snd (logAuditEvent env action resourceId details w))
            = console w
                ++ [mkLog LevelWarn
                      "Cannot log audit event: no organization ID available"
                      None]
     | Some org =>
         audit_requests (snd (logAuditEvent env action resourceId details w))
         = audit_requests w
             ++ [audit_row env org action resourceId details]
         /\ match audit_reply env with
            | Accepted =>
                audit_logs (snd (logAuditEvent env action resourceId details w))
                = audit_logs w
                    ++ [audit_row env org action resourceId details]
                /\ console (snd (logAuditEvent env action resourceId details w))
                   = console w
            | Rejected e =>
                audit_logs (snd (logAuditEvent env action resourceId details w))
                = audit_logs w
                /\ console (snd (logAuditEvent env action resourceId details w))
                   = console w
                       ++ [mkLog LevelError "Error logging audit event:"
                                 (Some e)]
            | Thrown e =>
                audit_logs (snd (logAuditEvent env action resourceId details w))
                = audit_logs w
                /\ console (snd (logAuditEvent env action resourceId details w))
                   = console w
                       ++ [mkLog LevelError
                                 "Unexpected error logging audit event:"
                                 (Some e)]
            end
     end.
Proof.
  unfold logAuditEvent, bind.
  destruct (or_null (env_organization_id env)) as [org|].
  - unfold try_catch, insert_audit_log, bind.
    destruct (audit_reply env) as [|e|e]; simpl; repeat split; reflexivity.
  - simpl. repeat split; reflexivity.
Qed.

(** *** The delete handler *)

Lemma fetchRisks_frame (env : Env) (w : World) :
  fst (fetchRisks env w) = Normal tt
  /\ risks_table (snd (fetchRisks env w)) = risks_table w
  /\ audit_logs (snd (fetchRisks env w)) = audit_logs w
  /\ audit_requests (snd (fetchRisks env w)) = audit_requests w.
Proof.
  unfold fetchRisks, try_finally, try_catch, select_all, bind.
  destruct (fetch_reply env); simpl; repeat split; reflexivity.
Qed.

Lemma logAuditEvent_frame (env : Env) (action : string)
  (resourceId : option string) (details : option Json) (w : World) :
  fst (logAuditEvent env action resourceId details w) = Normal tt
  /\ risks_table (snd (logAuditEvent env action resourceId details w))
     = risks_table w
  /\ audit_requests (snd (logAuditEvent env action resourceId details w))
     = audit_requests w
         ++ match or_null (env_organization_id env) with
            | Some org => [audit_row env org action resourceId details]
            | None => []
            end.
Proof.
  unfold logAuditEvent.
  destruct (or_null (env_organization_id env)) as [org|].
  - unfold try_catch, insert_audit_log, bind.
    destruct (audit_reply env); simpl; repeat split; reflexivity.
  - simpl. rewrite app_nil_r. repeat split; reflexivity.
Qed.

Lemma select_single_table (reply : Reply) (riskId : string) (w w' : World) :
  risks_table w' = risks_table w ->
  select_single reply riskId w' = (fst (select_single reply riskId w), w').
Proof.
  intros Ht. unfold select_single, bind, gets.
  destruct reply; try reflexivity.
  cbn beta. rewrite Ht.
  destruct (filter _ (risks_table w)) as [|? [|? ?]]; reflexivity.
Qed.

Lemma select_single_normal (reply : Reply) (riskId : string) (w : World) :
  (forall e, reply <> Thrown e) ->
  exists d, fst (select_single reply riskId w) = Normal d.
Proof.
  intros Hs. unfold select_single, bind, gets.
  destruct reply as [|e|e]; [| |now destruct (Hs e)].
  - destruct (filter _ (risks_table w)) as [|? [|? ?]]; eexists; reflexivity.
  - eexists; reflexivity.
Qed.

Lemma when_frame (c : bool) (f : State -> State) (w : World) :
  fst (when c (set_ui f) w) = Normal tt
  /\ risks_table (snd (when c (set_ui f) w)) = risks_table w
  /\ audit_requests (snd (when c (set_ui f) w)) = audit_requests w.
Proof. destruct c; repeat split; reflexivity. Qed.

(** The handler after the dialog was confirmed, the snapshot read
    returned and the store accepted the delete. *)
Lemma handleDeleteRisk_deleted (env : Env) (riskId riskTitle : string)
  (w : World) :
  confirm_answer env = true ->
  delete_reply env = Accepted ->
  (forall e, select_reply env <> Thrown e) ->
  fst (handleDeleteRisk env riskId riskTitle w) = Normal tt
  /\ risks_table (snd (handleDeleteRisk env riskId riskTitle w))
     = filter (fun x => negb (strict_eq (id x) riskId)) (risks_table w)
  /\ audit_requests (snd (handleDeleteRisk env riskId riskTitle w))
     = audit_requests w
         ++ match or_null (env_organization_id env) with
            | Some org =>
                [audit_row env org "risk_deleted" (Some riskId)
                   (Some (deleted_details env riskTitle
                            (pre_delete_snapshot env riskId w)))]
            | None => []
            end.
Proof.
  intros Hc Hd Hs.
  unfold pre_delete_snapshot.
  destruct (select_single_normal _ riskId w Hs) as [d Hsel]. rewrite Hsel.
  remember (handleDeleteRisk env riskId riskTitle w) as r eqn:Er.
  unfold handleDeleteRisk in Er. rewrite Hc, Hd in Er. cbn [negb] in Er.
  unfold try_finally, try_catch in Er.
  unfold bind at 1 in Er. cbn [set_ui modify] in Er.
  unfold bind at 1 in Er. cbn [set_ui modify] in Er.
  unfold bind at 1 in Er.
  rewrite (select_single_table _ riskId w) in Er by reflexivity.
  rewrite Hsel in Er.
  unfold bind at 1 in Er. unfold delete_risk at 1 in Er.
  unfold bind at 1 in Er. cbn [modify ret] in Er.
  unfold bind at 1 in Er. cbn [ret] in Er.
  unfold bind at 1 in Er.
  match type of Er with
  | context [logAuditEvent env ?a ?i ?x ?w0] =>
      pose proof (logAuditEvent_frame env a i x w0) as (Hl1 & Hl2 & Hl3);
      destruct (logAuditEvent env a i x w0) as [c1 w1]
  end.
  cbn [fst snd risks_table audit_requests] in Hl1, Hl2, Hl3. subst c1.
  unfold bind at 1 in Er. cbn [gets] in Er.
  unfold bind at 1 in Er.
  match type of Er with
  | context [when ?c (set_ui ?f) w1] =>
      pose proof (when_frame c f w1) as (Hw1 & Hw2 & Hw3);
      destruct (when c (set_ui f) w1) as [c2 w2]
  end.
  cbn [fst snd] in Hw1, Hw2, Hw3. subst c2.
  pose proof (fetchRisks_frame env w2) as (Hf1 & Hf2 & _ & Hf4).
  destruct (fetchRisks env w2) as [c3 w3].
  cbn [fst snd] in Hf1, Hf2, Hf4. subst c3.
  cbn in Er. subst r. cbn [fst snd risks_table audit_requests].
  repeat split; congruence.
Qed.

(** C7, as the code has it.  When the user confirms, the snapshot read
    does not throw and the store accepts the delete, the handler returns
    normally and the record is gone from the table whatever the outcome
    of the audit write.  The emitter is called once: with an organization
    scope exactly one row is handed to the audit store, with action
    risk_deleted, the risk's id, and details made of the title, the
    result of the snapshot read issued before the delete and a
    timestamp; with no scope no row is handed over.  When the read is
    accepted and the table holds exactly one row with the id, that result
    is the row's title, category, score and status. *)
Theorem handleDeleteRisk_audit (env : Env) (riskId riskTitle : string)
  (w : World) :
  confirm_answer env = true ->
  delete_reply env = Accepted ->
  (forall e, select_reply env <> Thrown e) ->
  fst (handleDeleteRisk env riskId riskTitle w) = Normal tt
  /\ risks_table (snd (handleDeleteRisk env riskId riskTitle w))
     = filter (fun x => negb (strict_eq (id x) riskId)) (risks_table w)
  /\ (forall x, In x (risks_table (snd (handleDeleteRisk env riskId riskTitle w)))
                -> id x <> riskId)
  /\ (forall reply,
         risks_table (snd (handleDeleteRisk (with_audit_reply reply env)
                                            riskId riskTitle w))
         = risks_table (snd (handleDeleteRisk env riskId riskTitle w)))
  /\ audit_requests (snd (handleDeleteRisk env riskId riskTitle w))
     = audit_requests w
         ++ match or_null (env_organization_id env) with
            | Some org =>
                [audit_row env org "risk_deleted" (Some riskId)
                   (Some (deleted_details env riskTitle
                            (pre_delete_snapshot env riskId w)))]
            | None => []
            end
  /\ get_field "risk_title"
       (deleted_details env riskTitle (pre_delete_snapshot env riskId w))
     = Some (JStr riskTitle)
  /\ get_field "risk_details"
       (deleted_details env riskTitle (pre_delete_snapshot env riskId w))
     = Some (match pre_delete_snapshot env riskId w with
             | Some d => d
             | None => JObj []
             end)
  /\ (forall row,
         select_reply env = Accepted ->
         filter (fun x => strict_eq (id x) riskId) (risks_table w) = [row] ->
         pre_delete_snapshot env riskId w = Some (snapshot_of row)).
Proof.
  intros Hc Hd Hs.
  destruct (handleDeleteRisk_deleted env riskId riskTitle w Hc Hd Hs)
    as (H1 & H2 & H3).
  split; [exact H1 | split; [exact H2 | split; [| split; [| split;
    [| split; [reflexivity | split; [reflexivity |]]]]]]].
  - intros x Hx. rewrite H2 in Hx. apply filter_In in Hx as [_ Hx].
    apply negb_true_iff, strict_eq_false_iff in Hx. exact Hx.
  - intros reply.
    destruct (handleDeleteRisk_deleted (with_audit_reply reply env)
                riskId riskTitle w Hc Hd Hs) as (_ & H2' & _).
    now rewrite H2', H2.
  - exact H3.
  - intros row Ha Hrow. unfold pre_delete_snapshot, select_single.
    rewrite Ha. unfold bind, gets. cbn beta. now rewrite Hrow.
Qed.

Lemma handleDeleteRisk_audit_witness :
  confirm_answer (sample_env (Some "org-1")) = true
  /\ delete_reply (sample_env (Some "org-1")) = Accepted
  /\ (forall e, select_reply (sample_env (Some "org-1")) <> Thrown e)
  /\ risks_table (snd (handleDeleteRisk (sample_env (Some "org-1")) "r1"
                         "Vendor outage" sample_world)) = []
  /\ audit_requests (snd (handleDeleteRisk (sample_env (Some "org-1")) "r1"
                            "Vendor outage" sample_world))
     = [audit_row (sample_env (Some "org-1")) "org-1" "risk_deleted"
          (Some "r1")
          (Some (deleted_details (sample_env (Some "org-1")) "Vendor outage"
                   (Some (snapshot_of vendor_outage))))]
  /\ get_field "risk_details"
       (deleted_details (sample_env (Some "org-1")) "Vendor outage"
          (pre_delete_snapshot (sample_env (Some "org-1")) "r1" sample_world))
     = Some (JObj [("title", JStr "Vendor outage");
                   ("category", JStr "operational");
                   ("risk_score", JNum 12);
                   ("status", JStr "assessed")]).
Proof.
  split; [reflexivity | split; [reflexivity | split; [discriminate |]]].
  destruct (handleDeleteRisk_audit (sample_env (Some "org-1")) "r1"
              "Vendor outage" sample_world eq_refl eq_refl
              ltac:(discriminate))
    as (_ & Ht & _ & _ & Ha & _ & Hd & _).
  split; [exact Ht | split; [exact Ha | exact Hd]].
Defined.

(** C7, as stated, fails when the profile carries no organization: the
    confirmed delete of risk r1 removes the row and no audit row is
    handed to the store, so it is not the case that exactly one
    risk_deleted event is emitted. *)
Lemma handleDeleteRisk_without_scope :
  risks_table (snd (handleDeleteRisk (sample_env None) "r1" "Vendor outage"
                                     sample_world)) = []
  /\ audit_requests (snd (handleDeleteRisk (sample_env None) "r1"
                                           "Vendor outage" sample_world)) = []
  /\ ~ (exists ev,
           audit_requests (snd (handleDeleteRisk (sample_env None) "r1"
                                  "Vendor outage" sample_world)) = [ev]
           /\ action ev = "risk_deleted").
Proof.
  split; [reflexivity | split; [reflexivity |]].
  intros [ev [H _]]. discriminate H.
Qed.

End RiskManagementFacts.

(** ** The asset form *)

Module AddAssetFormFacts.
Import JsString Effects AddAssetForm.
Local Open Scope list_scope.

Lemma totalRiskReductionOf_sum (ms : list AppliedMitigation) :
  totalRiskReductionOf ms = sum_reductions ms.
Proof.
  unfold totalRiskReductionOf.
  enough (H : forall acc,
             fold_left (fun sum m => sum + applied_risk_reduction_score m)
                       ms acc = acc + sum_reductions ms)
    by (rewrite H; lia).
  induction ms as [|m ms IH]; intros acc; simpl.
  - lia.
  - rewrite IH. lia.
Qed.

(** One run of the handler, in closed form. *)
Lemma handleSubmit_run (env : Env) (formData : FormData)
  (ms : list AppliedMitigation) (w : World) :
  handleSubmit env formData ms w
  = (Normal tt,
     if missing_required formData
     then mkWorld false (Some "Please fill in all required fields")
                  (aiScoring w) (console w) (submitted w)
     else mkWorld false
                  (match onSubmit_reply env with
                   | None => None
                   | Some err => Some (error_text err)
                   end)
                  false
                  (console w
                     ++ match estimator_reply env with
                        | Scored _ => []
                        | Failed e =>
                            [mkLog LevelError "Error getting AI risk score:"
                                   (Some e)]
                        end)
                  (submitted w
                     ++ [finalAssetData env formData ms
                                        (baseScoreOf env formData)])).
Proof.
  unfold handleSubmit, baseScoreOf, error_text, onSubmit, scoreAssetRisk,
    try_finally, try_catch, when, bind.
  destruct (missing_required formData); [reflexivity |].
  destruct (estimator_reply env) as [r|e], (onSubmit_reply env) as [err|];
    cbn; rewrite ?app_nil_r; reflexivity.
Qed.

Lemma skipn_length_app {A} (l l' : list A) :
  skipn (List.length l) (l ++ l') = l'.
Proof. induction l as [|x l IH]; simpl; auto. Qed.

Lemma submittedBy_run (env : Env) (formData : FormData)
  (ms : list AppliedMitigation) (w : World) :
  submittedBy env formData ms w
  = if missing_required formData then []
    else [finalAssetData env formData ms (baseScoreOf env formData)].
Proof.
  unfold submittedBy. rewrite handleSubmit_run.
  destruct (missing_required formData); cbn [snd submitted].
  - rewrite <- (app_nil_r (submitted w)) at 2. apply skipn_length_app.
  - apply skipn_length_app.
Qed.

(** *** The effective score *)

(** C1.  For every base score and mitigation sequence the total
    reduction is the sum of the reduction values, the effective score is
    the larger of 0 and base minus that sum, hence never negative, equal
    to the difference when the difference is not negative and 0
    otherwise; and this is the overall score of the record the handler
    submits. *)
Theorem effectiveRiskScore_floor (env : Env) (formData : FormData)
  (ms : list AppliedMitigation) (w : World) (aiRiskScore : AiRiskScore) :
  totalRiskReductionOf ms = sum_reductions ms
  /\ effectiveRiskScore aiRiskScore ms
     = Z.max 0 (overall aiRiskScore - sum_reductions ms)
  /\ 0 <= effectiveRiskScore aiRiskScore ms
  /\ effectiveRiskScore aiRiskScore ms
     = (if 0 <=? overall aiRiskScore - sum_reductions ms
        then overall aiRiskScore - sum_reductions ms
        else 0)
  /\ overall (ai_risk_score (finalAssetData env formData ms aiRiskScore))
     = effectiveRiskScore aiRiskScore ms
  /\ map (fun a => overall (ai_risk_score a)) (submittedBy env formData ms w)
     = if missing_required formData then []
       else [Z.max 0 (overall (baseScoreOf env formData) - sum_reductions ms)].
Proof.
  unfold effectiveRiskScore. rewrite totalRiskReductionOf_sum.
  split; [reflexivity | split; [reflexivity | split; [lia | split; [| split]]]].
  - destruct (Z.leb_spec 0 (overall aiRiskScore - sum_reductions ms)); lia.
  - cbn. unfold effectiveRiskScore. now rewrite totalRiskReductionOf_sum.
  - rewrite submittedBy_run. destruct (missing_required formData);
      [reflexivity |].
    cbn. unfold effectiveRiskScore. now rewrite totalRiskReductionOf_sum.
Qed.

(** C6.  The score object built by the effective-score step carries the
    base score as originalScore and the sum of the reductions as
    totalRiskReduction next to the effective overall score, and keeps the
    other properties of the base object; the record the handler submits
    carries exactly this object, built from the estimator's answer or
    from the form's default. *)
Theorem updatedRiskScore_retains (env : Env) (formData : FormData)
  (ms : list AppliedMitigation) (w : World) (aiRiskScore : AiRiskScore) :
  originalScore (updatedRiskScore aiRiskScore ms) = Some (overall aiRiskScore)
  /\ totalRiskReduction (updatedRiskScore aiRiskScore ms)
     = Some (sum_reductions ms)
  /\ overall (updatedRiskScore aiRiskScore ms)
     = Z.max 0 (overall aiRiskScore - sum_reductions ms)
  /\ mitigationApplied (updatedRiskScore aiRiskScore ms)
     = Some (0 <? sum_reductions ms)
  /\ (components (updatedRiskScore aiRiskScore ms),
      trend (updatedRiskScore aiRiskScore ms),
      lastUpdated (updatedRiskScore aiRiskScore ms),
      confidence (updatedRiskScore aiRiskScore ms),
      predictions (updatedRiskScore aiRiskScore ms),
      explanation (updatedRiskScore aiRiskScore ms))
     = (components aiRiskScore, trend aiRiskScore, lastUpdated aiRiskScore,
        confidence aiRiskScore, predictions aiRiskScore,
        explanation aiRiskScore)
  /\ map (fun a => (originalScore (ai_risk_score a),
                    totalRiskReduction (ai_risk_score a)))
         (submittedBy env formData ms w)
     = if missing_required formData then []
       else [(Some (overall (baseScoreOf env formData)),
              Some (sum_reductions ms))].
Proof.
  unfold updatedRiskScore, effectiveRiskScore. cbn [originalScore
    totalRiskReduction overall mitigationApplied components trend
    lastUpdated confidence predictions explanation].
  rewrite totalRiskReductionOf_sum. repeat split.
  rewrite submittedBy_run. destruct (missing_required formData);
    [reflexivity |].
  cbn. now rewrite totalRiskReductionOf_sum.
Qed.

(** *** The stored mitigation list *)

(** C5, as the code has it.  The submitted record stores the mitigation
    list itself when the list is not empty and the null value when it is
    empty. *)
Theorem finalAssetData_mitigations (env : Env) (formData : FormData)
  (ms : list AppliedMitigation) (w : World) (aiRiskScore : AiRiskScore) :
  mitigations (finalAssetData env formData ms aiRiskScore)
  = match ms with
    | [] => None
    | _ :: _ => Some ms
    end
  /\ map mitigations (submittedBy env formData ms w)
     = if missing_required formData then []
       else [match ms with
             | [] => None
             | _ :: _ => Some ms
             end].
Proof.
  split.
  - destruct ms; reflexivity.
  - rewrite submittedBy_run. destruct (missing_required formData);
      [reflexivity |].
    destruct ms; reflexivity.
Qed.

(** C5, as stated, fails: a valid form submitted with an empty mitigation
    list yields one record whose mitigations value is null, not the empty
    sequence. *)
Lemma empty_mitigations_stored_as_null :
  map mitigations
      (submittedBy (sample_env (Failed estimator_down)) sample_form []
                   sample_world)
  = [None]
  /\ map mitigations
         (submittedBy (sample_env (Failed estimator_down)) sample_form []
                      sample_world)
     <> [Some []].
Proof. split; [reflexivity | discriminate]. Qed.

(** *** Estimator failure *)

(** C8.  When the required fields are present and the estimator call
    fails, the handler returns normally, prints the failure to the
    console as its only output there, and calls onSubmit once with the
    record built from the form's default score structure; the error cell
    afterwards reflects the outcome of onSubmit alone, and the loading
    and scoring indicators are off. *)
Theorem handleSubmit_estimator_fallback (env : Env) (formData : FormData)
  (ms : list AppliedMitigation) (w : World) (e : JsError) :
  missing_required formData = false ->
  estimator_reply env = Failed e ->
  fst (handleSubmit env formData ms w) = Normal tt
  /\ submittedBy env formData ms w
     = [finalAssetData env formData ms (form_ai_risk_score formData)]
  /\ submitted (snd (handleSubmit env formData ms w))
     = submitted w
         ++ [finalAssetData env formData ms (form_ai_risk_score formData)]
  /\ originalScore
       (ai_risk_score
          (finalAssetData env formData ms (form_ai_risk_score formData)))
     = Some (overall (form_ai_risk_score formData))
  /\ console (snd (handleSubmit env formData ms w))
     = console w ++ [mkLog LevelError "Error getting AI risk score:" (Some e)]
  /\ error (snd (handleSubmit env formData ms w))
     = match onSubmit_reply env with
       | None => None
       | Some err => Some (error_text err)
       end
  /\ loading (snd (handleSubmit env formData ms w)) = false
  /\ aiScoring (snd (handleSubmit env formData ms w)) = false.
Proof.
  intros Hv He. rewrite submittedBy_run, handleSubmit_run.
  unfold baseScoreOf. rewrite Hv, He. cbn. repeat split.
Qed.

Lemma handleSubmit_estimator_fallback_witness :
  missing_required sample_form = false
  /\ estimator_reply (sample_env (Failed estimator_down))
     = Failed estimator_down
  /\ map (fun a => (overall (ai_risk_score a),
                    originalScore (ai_risk_score a)))
         (submitted (snd (handleSubmit (sample_env (Failed estimator_down))
                                       sample_form [] sample_world)))
     = [(25, Some 25)]
  /\ error (snd (handleSubmit (sample_env (Failed estimator_down))
                              sample_form [] sample_world)) = None.
Proof.
  split; [reflexivity | split; [reflexivity |]].
  destruct (handleSubmit_estimator_fallback
              (sample_env (Failed estimator_down)) sample_form []
              sample_world estimator_down eq_refl eq_refl)
    as (_ & _ & Hs & _ & _ & He & _).
  split; [rewrite Hs; reflexivity | exact He].
Defined.

End AddAssetFormFacts.

(** ** The risk table *)

Module RiskTableFacts.
Import JsString JsStringFacts Effects RiskManagement RiskTable.
Local Open Scope list_scope.

(** *** The order on column values *)

Lemma ascii_compare_lt_trans (a b c : ascii) :
  Ascii.compare a b = Lt -> Ascii.compare b c = Lt -> Ascii.compare a c = Lt.
Proof.
  unfold Ascii.compare. rewrite !N.compare_lt_iff. apply N.lt_trans.
Qed.

Lemma string_compare_lt_trans (a b c : string) :
  String.compare a b = Lt -> String.compare b c = Lt ->
  String.compare a c = Lt.
Proof.
  revert b c; induction a as [|x a IH]; intros [|y b] [|z c]; simpl;
    try congruence.
  destruct (Ascii.compare x y) eqn:Exy; try discriminate;
    destruct (Ascii.compare y z) eqn:Eyz; try discriminate; intros H1 H2.
  - apply Ascii.compare_eq_iff in Exy, Eyz. subst.
    assert (E : Ascii.compare z z = Eq).
    { unfold Ascii.compare. apply N.compare_refl. }
    rewrite E. eauto.
  - apply Ascii.compare_eq_iff in Exy. subst. now rewrite Eyz.
  - apply Ascii.compare_eq_iff in Eyz. subst. now rewrite Exy.
  - now rewrite (ascii_compare_lt_trans _ _ _ Exy Eyz).
Qed.

Lemma string_ltb_asym (a b : string) :
  String.ltb a b = true -> String.ltb b a = false.
Proof.
  unfold String.ltb. rewrite (String.compare_antisym b a).
  destruct (String.compare a b); simpl; congruence.
Qed.

(** Not coming after is transitive on strings. *)
Lemma string_not_gt_trans (a b c : string) :
  String.ltb b a = false -> String.ltb c b = false -> String.ltb c a = false.
Proof.
  unfold String.ltb. intros Hab Hbc.
  destruct (String.compare c a) eqn:Eca; try reflexivity.
  exfalso.
  destruct (String.compare b a) eqn:Eba; try discriminate.
  - apply String.compare_eq_iff in Eba. subst. now rewrite Eca in Hbc.
  - destruct (String.compare c b) eqn:Ecb; try discriminate.
    + apply String.compare_eq_iff in Ecb. subst. congruence.
    + rewrite (String.compare_antisym b a) in Eba.
      rewrite (String.compare_antisym c b) in Ecb.
      destruct (String.compare a b) eqn:Eab; try discriminate.
      destruct (String.compare b c) eqn:Ebc; try discriminate.
      pose proof (string_compare_lt_trans _ _ _ Eab Ebc) as Hac.
      rewrite (String.compare_antisym c a), Hac in Eca. discriminate.
Qed.

Lemma js_lt_asym (x y : FieldValue) : js_lt x y = true -> js_lt y x = false.
Proof.
  destruct x, y; simpl; try congruence.
  - apply string_ltb_asym.
  - rewrite Z.ltb_lt, Z.ltb_ge. lia.
Qed.

(** *** Sorting by insertion *)

Section ArraySort.
Context {A : Type} (cmp : A -> A -> Z) (R : A -> A -> Prop).
Hypothesis cmp_le : forall a b, (cmp a b <=? 0) = true -> R a b.
Hypothesis cmp_gt : forall a b, (cmp a b <=? 0) = false -> R b a.
Hypothesis R_trans : forall a b c, R a b -> R b c -> R a c.

Lemma insert_by_perm (x : A) (l : list A) :
  Permutation (insert_by cmp x l) (x :: l).
Proof.
  induction l as [|y l IH]; simpl; [reflexivity |].
  destruct (cmp x y <=? 0); [reflexivity |].
  rewrite IH. apply perm_swap.
Qed.

Lemma array_sort_perm (l : list A) : Permutation (array_sort cmp l) l.
Proof.
  induction l as [|x l IH]; simpl; [reflexivity |].
  rewrite insert_by_perm. now constructor.
Qed.

Lemma insert_by_sorted (x : A) (l : list A) :
  StronglySorted R l -> StronglySorted R (insert_by cmp x l).
Proof.
  induction l as [|y l IH]; intros Hs; simpl.
  - repeat constructor.
  - inversion Hs as [|? ? Hl Hy]; subst.
    destruct (cmp x y <=? 0) eqn:E.
    + constructor; [exact Hs |].
      constructor; [now apply cmp_le |].
      eapply Forall_impl; [| exact Hy].
      intros z Hz. eapply R_trans; [apply cmp_le; exact E | exact Hz].
    + constructor; [now apply IH |].
      eapply Permutation_Forall; [symmetry; apply insert_by_perm |].
      constructor; [now apply cmp_gt | exact Hy].
Qed.

Lemma array_sort_sorted (l : list A) : StronglySorted R (array_sort cmp l).
Proof.
  induction l as [|x l IH]; simpl; [constructor |].
  now apply insert_by_sorted.
Qed.

End ArraySort.

Lemma StronglySorted_snoc {A} (R : A -> A -> Prop) (l : list A) (a : A) :
  StronglySorted R l -> Forall (fun x => R x a) l ->
  StronglySorted R (l ++ [a]).
Proof.
  induction l as [|x l IH]; intros Hs Hf; simpl.
  - repeat constructor.
  - inversion Hs; subst. inversion Hf; subst.
    constructor; [now apply IH |].
    apply Forall_app. split; [assumption | now repeat constructor].
Qed.

Lemma StronglySorted_rev {A} (R : A -> A -> Prop) (l : list A) :
  StronglySorted R l -> StronglySorted (fun a b => R b a) (rev l).
Proof.
  induction 1 as [|a l Hs IH Hf]; simpl; [constructor |].
  apply StronglySorted_snoc; [exact IH |].
  apply Forall_rev. exact Hf.
Qed.

(** Two arrangements of the same elements in the same antisymmetric order
    are the same list. *)
Lemma StronglySorted_unique {A} (R : A -> A -> Prop) (l1 l2 : list A) :
  (forall a b, In a l1 -> In b l1 -> R a b -> R b a -> a = b) ->
  StronglySorted R l1 -> StronglySorted R l2 -> Permutation l1 l2 ->
  l1 = l2.
Proof.
  revert l2. induction l1 as [|a t1 IH]; intros l2 Hanti H1 H2 Hp.
  - now apply Permutation_nil in Hp.
  - destruct l2 as [|b t2].
    { symmetry in Hp. now apply Permutation_nil in Hp. }
    inversion H1 as [|? ? Hs1 Hf1]; subst.
    inversion H2 as [|? ? Hs2 Hf2]; subst.
    assert (Hab : a = b).
    { assert (Ha : In a (b :: t2))
        by (eapply Permutation_in; [exact Hp | now left]).
      assert (Hb : In b (a :: t1))
        by (eapply Permutation_in; [symmetry; exact Hp | now left]).
      destruct Ha as [Ha|Ha]; [now symmetry |].
      destruct Hb as [Hb|Hb]; [exact Hb |].
      rewrite Forall_forall in Hf1, Hf2.
      apply Hanti; [now left | now right | now apply Hf1 | now apply Hf2]. }
    subst b. f_equal. apply IH; try assumption.
    + intros x y Hx Hy. apply Hanti; now right.
    + now apply Permutation_cons_inv in Hp.
Qed.

Lemma NoDup_map_inj {A B} (f : A -> B) (l : list A) (a b : A) :
  NoDup (map f l) -> In a l -> In b l -> f a = f b -> a = b.
Proof.
  induction l as [|x l IH]; simpl; intros Hn Ha Hb E; [contradiction |].
  inversion Hn as [|? ? Hx Hn']; subst.
  destruct Ha as [->|Ha], Hb as [->|Hb]; auto.
  - exfalso. apply Hx. rewrite E. now apply in_map.
  - exfalso. apply Hx. rewrite <- E. now apply in_map.
Qed.

(** *** The comparator of the table *)

Lemma compareRisks_le (s : SortState) (a b : Risk) :
  (compareRisks s a b <=? 0) = true ->
  InOrder (sortField s) (sortDirection s) a b.
Proof.
  unfold compareRisks, InOrder.
  destruct (sortDirection s);
    destruct (js_lt (field (sortField s) a) (field (sortField s) b)) eqn:E1,
             (js_lt (field (sortField s) b) (field (sortField s) a)) eqn:E2;
    simpl; intros H; try congruence;
    try (apply js_lt_asym in E1; congruence);
    try (apply js_lt_asym in E2; congruence);
    try (cbv in H; discriminate).
Qed.

Lemma compareRisks_gt (s : SortState) (a b : Risk) :
  (compareRisks s a b <=? 0) = false ->
  InOrder (sortField s) (sortDirection s) b a.
Proof.
  unfold compareRisks, InOrder.
  destruct (sortDirection s);
    destruct (js_lt (field (sortField s) a) (field (sortField s) b)) eqn:E1,
             (js_lt (field (sortField s) b) (field (sortField s) a)) eqn:E2;
    simpl; intros H; try congruence;
    try (apply js_lt_asym in E1; congruence);
    try (apply js_lt_asym in E2; congruence);
    try (cbv in H; discriminate).
Qed.

(** Values of one column are all of one kind, on which not coming after
    is transitive and antisymmetric. *)
Lemma field_not_gt_trans (f : string) (a b c : Risk) :
  js_lt (field f b) (field f a) = false ->
  js_lt (field f c) (field f b) = false ->
  js_lt (field f c) (field f a) = false.
Proof.
  unfold field.
  repeat (match goal with
          | |- context [strict_eq f ?k] => destruct (strict_eq f k)
          end);
    simpl; try apply string_not_gt_trans; try reflexivity.
  rewrite !Z.ltb_ge. lia.
Qed.

Lemma field_not_gt_antisym (f : string) (a b : Risk) :
  js_lt (field f b) (field f a) = false ->
  js_lt (field f a) (field f b) = false ->
  field f a = field f b.
Proof.
  assert (Hs : forall x y, String.ltb y x = false -> String.ltb x y = false ->
                           VString x = VString y).
  { intros x y. unfold String.ltb. rewrite (String.compare_antisym y x).
    destruct (String.compare x y) eqn:E; simpl; try discriminate.
    intros _ _. apply String.compare_eq_iff in E. now subst. }
  unfold field.
  repeat (match goal with
          | |- context [strict_eq f ?k] => destruct (strict_eq f k)
          end);
    simpl; try apply Hs; try reflexivity.
  rewrite !Z.ltb_ge. intros. f_equal. lia.
Qed.

Lemma InOrder_trans (f : string) (d : Direction) (a b c : Risk) :
  InOrder f d a b -> InOrder f d b c -> InOrder f d a c.
Proof.
  destruct d; simpl; intros H1 H2.
  - exact (field_not_gt_trans f a b c H1 H2).
  - exact (field_not_gt_trans f c b a H2 H1).
Qed.

Lemma sortedRisks_strongly_sorted (s : SortState) (st : State) :
  StronglySorted (InOrder (sortField s) (sortDirection s)) (sortedRisks s st).
Proof.
  unfold sortedRisks. apply array_sort_sorted.
  - apply compareRisks_le.
  - apply compareRisks_gt.
  - apply InOrder_trans.
Qed.

(** *** Properties of the table *)

(** X1.  Two scores get the same colour classes exactly when the
    classifier puts them in the same level. *)
Theorem getRiskLevelColor_by_level (a b : Z) :
  getRiskLevelColor a = getRiskLevelColor b
  <-> getRiskLevel a = getRiskLevel b.
Proof.
  unfold getRiskLevelColor, getRiskLevel.
  destruct (a <=? 5), (a <=? 12), (a <=? 20),
    (b <=? 5), (b <=? 12), (b <=? 20);
    split; intros H; try reflexivity; discriminate H.
Qed.

(** X2.  The sorted view holds exactly the records of the filtered view,
    each as often as there: it is a rearrangement of it, of the same
    length, and never longer than the collection. *)
Theorem sortedRisks_same_records (s : SortState) (st : State) :
  Permutation (sortedRisks s st) (filteredRisks st)
  /\ List.length (sortedRisks s st) = List.length (filteredRisks st)
  /\ (List.length (sortedRisks s st) <= List.length (risks st))%nat
  /\ (forall r, In r (sortedRisks s st)
                <-> In r (risks st) /\ keepsRisk st r = true).
Proof.
  assert (Hp : Permutation (sortedRisks s st) (filteredRisks st))
    by apply array_sort_perm.
  split; [exact Hp | split; [now apply Permutation_length | split]].
  - rewrite (Permutation_length Hp). unfold filteredRisks.
    apply filter_length_le.
  - intros r. unfold filteredRisks in Hp. rewrite <- filter_In. split.
    + apply Permutation_in. exact Hp.
    + apply Permutation_in. symmetry. exact Hp.
Qed.

(** X3.  In the sorted view every record stands before all records whose
    value in the sort column comes strictly after its own in the chosen
    direction: ascending, no later record has a smaller value;
    descending, no later record has a larger one. *)
Theorem sortedRisks_ordered (s : SortState) (st : State) :
  StronglySorted (InOrder (sortField s) (sortDirection s)) (sortedRisks s st).
Proof.
  unfold sortedRisks. apply array_sort_sorted.
  - apply compareRisks_le.
  - apply compareRisks_gt.
  - intros a b c. apply InOrder_trans.
Qed.

(** X4.  When the records shown have pairwise different values in the
    active sort column, clicking that column's header again shows them in
    exactly the reverse order. *)
Theorem handleSort_reverses (s : SortState) (st : State) :
  NoDup (map (field (sortField s)) (filteredRisks st)) ->
  sortedRisks (handleSort (sortField s) s) st = rev (sortedRisks s st).
Proof.
  intros Hn.
  set (f := sortField s). set (d := sortDirection s).
  set (d' := match d with asc => desc | desc => asc end).
  assert (Hh : handleSort f s = mkSortState f d').
  { unfold handleSort, f, strict_eq. now rewrite String.eqb_refl. }
  rewrite Hh.
  assert (Hflip : forall a b, InOrder f d b a <-> InOrder f d' a b).
  { intros a b. subst d'. destruct d; simpl; reflexivity. }
  assert (H1 : StronglySorted (InOrder f d')
                 (sortedRisks (mkSortState f d') st))
    by apply (sortedRisks_strongly_sorted (mkSortState f d') st).
  assert (H2 : StronglySorted (InOrder f d') (rev (sortedRisks s st))).
  { pose proof (StronglySorted_rev _ _ (sortedRisks_strongly_sorted s st))
      as H.
    clear -H Hflip. fold f d in H.
    induction H as [|a l Hs IH Hf]; constructor; auto.
    eapply Forall_impl; [| exact Hf]. intros b Hb. now apply Hflip. }
  assert (Hp1 : Permutation (sortedRisks (mkSortState f d') st)
                            (filteredRisks st)) by apply array_sort_perm.
  assert (Hp2 : Permutation (rev (sortedRisks s st)) (filteredRisks st)).
  { rewrite <- Permutation_rev. apply array_sort_perm. }
  apply (StronglySorted_unique (InOrder f d')); try assumption.
  - intros a b Ha Hb Hab Hba.
    apply (NoDup_map_inj (field f) (filteredRisks st)); try assumption.
    + eapply Permutation_in; [exact Hp1 | exact Ha].
    + eapply Permutation_in; [exact Hp1 | exact Hb].
    + destruct d'; simpl in Hab, Hba.
      * now apply field_not_gt_antisym.
      * symmetry. now apply field_not_gt_antisym.
  - rewrite Hp1. symmetry. exact Hp2.
Qed.

Lemma handleSort_reverses_witness :
  NoDup (map (field (sortField initialSort)) (filteredRisks sample_state))
  /\ sortedRisks initialSort sample_state = [data_loss; vendor_outage]
  /\ sortedRisks (handleSort "risk_score" initialSort) sample_state
     = [vendor_outage; data_loss].
Proof.
  assert (Hn : NoDup (map (field (sortField initialSort))
                          (filteredRisks sample_state))).
  { repeat constructor; simpl; intuition discriminate. }
  split; [exact Hn | split; [reflexivity |]].
  exact (handleSort_reverses initialSort sample_state Hn).
Defined.

(** X5.  A click on a column header always makes that column the sort
    column.  On the active column it flips the direction, so that a
    second click restores the sort state; on another column it selects
    descending order, whatever the direction was. *)
Theorem handleSort_toggle (f : string) (s : SortState) :
  sortField (handleSort f s) = f
  /\ (sortField s = f ->
      sortDirection (handleSort f s) <> sortDirection s
      /\ handleSort f (handleSort f s) = s)
  /\ (sortField s <> f -> handleSort f s = mkSortState f desc)
  /\ handleSort f (handleSort f (handleSort f s)) = handleSort f s.
Proof.
  unfold handleSort, strict_eq.
  destruct (String.eqb_spec (sortField s) f) as [E|E]; simpl.
  - rewrite E, String.eqb_refl. simpl. rewrite String.eqb_refl.
    destruct s as [sf sd]; simpl in *; subst.
    destruct sd; repeat split; intros; try discriminate; try reflexivity;
      try congruence.
  - rewrite String.eqb_refl. simpl. rewrite String.eqb_refl.
    repeat split; intros; try congruence; reflexivity.
Qed.

End RiskTableFacts.

(** ** The handlers of the risk list on their other paths *)

Module RiskHandlersFacts.
Import JsString JsStringFacts Effects RiskManagement RiskManagementFacts.
Import RiskEnv.
Local Open Scope list_scope.

(** X6.  Reloading never throws, ends with the loading flag off and
    leaves both remote tables alone.  When the read is accepted the
    collection becomes the table and the error is cleared; when it is
    rejected or throws, the collection loaded before is kept, the error
    reads "Failed to load risk data" and the failure is printed. *)
Theorem fetchRisks_outcome (env : Env) (w : World) :
  fst (fetchRisks env w) = Normal tt
  /\ loading (ui (snd (fetchRisks env w))) = false
  /\ risks_table (snd (fetchRisks env w)) = risks_table w
  /\ audit_logs (snd (fetchRisks env w)) = audit_logs w
  /\ audit_requests (snd (fetchRisks env w)) = audit_requests w
  /\ match fetch_reply env with
     | Accepted =>
         risks (ui (snd (fetchRisks env w))) = risks_table w
         /\ error (ui (snd (fetchRisks env w))) = None
         /\ console (snd (fetchRisks env w)) = console w
     | Rejected e | Thrown e =>
         risks (ui (snd (fetchRisks env w))) = risks (ui w)
         /\ error (ui (snd (fetchRisks env w)))
            = Some "Failed to load risk data"
         /\ console (snd (fetchRisks env w))
            = console w ++ [mkLog LevelError "Error fetching risks:" (Some e)]
     end.
Proof.
  unfold fetchRisks, try_finally, try_catch, select_all, bind.
  destruct (fetch_reply env); simpl; repeat split; reflexivity.
Qed.

(** X7.  The emitter writes only well-formed rows: whatever it hands to
    the audit store is at most one row, with a non-empty organization id,
    resource type risk and the action it was called with; and what the
    audit table gains is nothing or that row. *)
Theorem logAuditEvent_rows (env : Env) (action : string)
  (resourceId : option string) (details : option Json) (w : World) :
  exists rows,
    audit_requests (snd (logAuditEvent env action resourceId details w))
    = audit_requests w ++ rows
    /\ (List.length rows <= 1)%nat
    /\ Forall (fun r => organization_id r <> ""
                        /\ resource_type r = "risk"
                        /\ RiskManagement.action r = action
                        /\ resource_id r = resourceId
                        /\ RiskManagement.details r = details) rows
    /\ (audit_logs (snd (logAuditEvent env action resourceId details w))
        = audit_logs w
        \/ audit_logs (snd (logAuditEvent env action resourceId details w))
           = audit_logs w ++ rows).
Proof.
  unfold logAuditEvent.
  destruct (or_null (env_organization_id env)) as [org|] eqn:Eorg.
  - exists [audit_row env org action resourceId details].
    assert (Hne : org <> "").
    { unfold or_null in Eorg.
      destruct (env_organization_id env) as [o|]; [|discriminate].
      destruct (truthy o) eqn:Et; [|discriminate].
      injection Eorg as <-. unfold truthy in Et.
      apply negb_true_iff, String.eqb_neq in Et. exact Et. }
    unfold try_catch, insert_audit_log, bind.
    destruct (audit_reply env); simpl;
      (split; [reflexivity | split; [lia | split; [|auto]]]);
      repeat constructor; auto.
  - exists []. simpl. rewrite app_nil_r. repeat split; auto.
Qed.

(** The handler on its failure path, in closed form. *)
Lemma handleDeleteRisk_failed_run (env : Env) (riskId riskTitle : string)
  (w : World) (e : JsError) :
  confirm_answer env = true ->
  select_reply env = Thrown e
  \/ ((forall e', select_reply env <> Thrown e')
      /\ (delete_reply env = Rejected e \/ delete_reply env = Thrown e)) ->
  handleDeleteRisk env riskId riskTitle w
  = (Normal tt,
     mkWorld
       (setLoading false
          (setError (Some (if instanceof_Error e then message e
                           else "Failed to delete risk"))
             (setError None (setLoading true (ui w)))))
       (risks_table w) (audit_logs w) (audit_requests w)
       (console w ++ [mkLog LevelError "Error deleting risk:" (Some e)])).
Proof.
  intros Hc Hf. unfold handleDeleteRisk. rewrite Hc. cbn [negb].
  unfold try_finally, try_catch.
  unfold bind at 1. cbn [set_ui modify].
  unfold bind at 1. cbn [set_ui modify].
  unfold bind at 1.
  destruct Hf as [Hs | [Hs Hd]].
  - unfold select_single. rewrite Hs. reflexivity.
  - destruct (select_single_normal _ riskId w Hs) as [d Hsel].
    rewrite (select_single_table _ riskId w) by reflexivity. rewrite Hsel.
    unfold bind at 1. unfold delete_risk at 1.
    destruct Hd as [Hd|Hd]; rewrite Hd; reflexivity.
Qed.

(** X8.  When the snapshot read throws, or the store rejects the delete
    or the delete call throws, the handler still returns normally: the
    risks table, the audit table and the loaded collection are as before,
    no audit event is emitted, the failure is printed, the loading flag
    is off and the error shown is the failure's message, or "Failed to
    delete risk" when the failure is not an Error object. *)
Theorem handleDeleteRisk_failed (env : Env) (riskId riskTitle : string)
  (w : World) (e : JsError) :
  confirm_answer env = true ->
  select_reply env = Thrown e
  \/ ((forall e', select_reply env <> Thrown e')
      /\ (delete_reply env = Rejected e \/ delete_reply env = Thrown e)) ->
  fst (handleDeleteRisk env riskId riskTitle w) = Normal tt
  /\ risks_table (snd (handleDeleteRisk env riskId riskTitle w))
     = risks_table w
  /\ audit_requests (snd (handleDeleteRisk env riskId riskTitle w))
     = audit_requests w
  /\ audit_logs (snd (handleDeleteRisk env riskId riskTitle w))
     = audit_logs w
  /\ risks (ui (snd (handleDeleteRisk env riskId riskTitle w)))
     = risks (ui w)
  /\ selectedRisk (ui (snd (handleDeleteRisk env riskId riskTitle w)))
     = selectedRisk (ui w)
  /\ loading (ui (snd (handleDeleteRisk env riskId riskTitle w))) = false
  /\ error (ui (snd (handleDeleteRisk env riskId riskTitle w)))
     = Some (if instanceof_Error e then message e
             else "Failed to delete risk")
  /\ console (snd (handleDeleteRisk env riskId riskTitle w))
     = console w ++ [mkLog LevelError "Error deleting risk:" (Some e)].
Proof.
  intros Hc Hf. rewrite (handleDeleteRisk_failed_run _ _ _ _ e Hc Hf).
  repeat split.
Qed.

Lemma handleDeleteRisk_failed_witness :
  confirm_answer (with_delete_reply (Rejected store_down)
                    (sample_env (Some "org-1"))) = true
  /\ (forall e', select_reply (with_delete_reply (Rejected store_down)
                                 (sample_env (Some "org-1"))) <> Thrown e')
  /\ risks_table
       (snd (handleDeleteRisk
               (with_delete_reply (Rejected store_down)
                  (sample_env (Some "org-1")))
               "r1" "Vendor outage" sample_world))
     = [vendor_outage]
  /\ error
       (ui (snd (handleDeleteRisk
                   (with_delete_reply (Rejected store_down)
                      (sample_env (Some "org-1")))
                   "r1" "Vendor outage" sample_world)))
     = Some "store unavailable".
Proof.
  assert (Hs : forall e', select_reply
                            (with_delete_reply (Rejected store_down)
                               (sample_env (Some "org-1"))) <> Thrown e').
  { intros e' H. cbv in H. discriminate H. }
  split; [reflexivity | split; [exact Hs |]].
  destruct (handleDeleteRisk_failed
              (with_delete_reply (Rejected store_down)
                 (sample_env (Some "org-1")))
              "r1" "Vendor outage" sample_world store_down eq_refl
              (or_intror (conj Hs (or_introl eq_refl))))
    as (_ & Ht & _ & _ & _ & _ & _ & He & _).
  split; [rewrite Ht; reflexivity | rewrite He; reflexivity].
Defined.

(** X9.  The delete handler never throws, and it emits an audit event
    only for a delete the store accepted: on every run either the risks
    table and the rows handed to the audit store are as before, or the
    user confirmed, the store accepted the delete and the table is the
    old one without the records of that id.  A declined confirmation
    leaves the whole world as it was. *)
Theorem handleDeleteRisk_safe (env : Env) (riskId riskTitle : string)
  (w : World) :
  fst (handleDeleteRisk env riskId riskTitle w) = Normal tt
  /\ (confirm_answer env = false ->
      snd (handleDeleteRisk env riskId riskTitle w) = w)
  /\ ((risks_table (snd (handleDeleteRisk env riskId riskTitle w))
       = risks_table w
       /\ audit_requests (snd (handleDeleteRisk env riskId riskTitle w))
          = audit_requests w)
      \/ (confirm_answer env = true
          /\ delete_reply env = Accepted
          /\ risks_table (snd (handleDeleteRisk env riskId riskTitle w))
             = filter (fun x => negb (strict_eq (id x) riskId))
                      (risks_table w))).
Proof.
  destruct (confirm_answer env) eqn:Hc.
  2:{ unfold handleDeleteRisk. rewrite Hc. cbn. repeat split. now left. }
  assert (Hcase :
    (exists e, select_reply env = Thrown e
               \/ ((forall e', select_reply env <> Thrown e')
                   /\ (delete_reply env = Rejected e
                       \/ delete_reply env = Thrown e)))
    \/ ((forall e', select_reply env <> Thrown e')
        /\ delete_reply env = Accepted)).
  { destruct (select_reply env) as [|e|e] eqn:Es.
    - destruct (delete_reply env) as [|e|e] eqn:Ed.
      + right. split; [discriminate | reflexivity].
      + left. exists e. right. split; [discriminate | now left].
      + left. exists e. right. split; [discriminate | now right].
    - destruct (delete_reply env) as [|e'|e'] eqn:Ed.
      + right. split; [discriminate | reflexivity].
      + left. exists e'. right. split; [discriminate | now left].
      + left. exists e'. right. split; [discriminate | now right].
    - left. exists e. now left. }
  destruct Hcase as [[e Hf] | [Hs Hd]].
  - rewrite (handleDeleteRisk_failed_run _ _ _ _ e Hc Hf). cbn.
    split; [reflexivity | split; [discriminate | left; now split]].
  - destruct (handleDeleteRisk_deleted env riskId riskTitle w Hc Hd Hs)
      as (H1 & H2 & _).
    split; [exact H1 | split; [discriminate | right; auto]].
Qed.

Lemma logAuditEvent_ui (env : Env) (action : string)
  (resourceId : option string) (details : option Json) (w : World) :
  fst (logAuditEvent env action resourceId details w) = Normal tt
  /\ ui (snd (logAuditEvent env action resourceId details w)) = ui w
  /\ risks_table (snd (logAuditEvent env action resourceId details w))
     = risks_table w.
Proof.
  unfold logAuditEvent.
  destruct (or_null (env_organization_id env)) as [org|].
  - unfold try_catch, insert_audit_log, bind.
    destruct (audit_reply env); simpl; repeat split; reflexivity.
  - simpl. repeat split; reflexivity.
Qed.

Lemma fetchRisks_accepted (env : Env) (w : World) :
  fetch_reply env = Accepted ->
  fst (fetchRisks env w) = Normal tt
  /\ ui (snd (fetchRisks env w))
     = setLoading false
         (setRisks (risks_table w) (setError None (setLoading true (ui w)))).
Proof.
  intros Hf.
  unfold fetchRisks, try_finally, try_catch, select_all, bind.
  rewrite Hf. simpl. split; reflexivity.
Qed.

(** X10.  After a confirmed delete that the store accepted, followed by
    an accepted reload, the loaded collection is the old table without
    the records of that id, so no record of that id is left in the
    filtered view; the error is cleared, the loading flag is off, the
    filter controls are as before, and the detail selection is dropped
    exactly when it showed the deleted record. *)
Theorem handleDeleteRisk_refreshed (env : Env) (riskId riskTitle : string)
  (w : World) :
  confirm_answer env = true ->
  delete_reply env = Accepted ->
  (forall e, select_reply env <> Thrown e) ->
  fetch_reply env = Accepted ->
  risks (ui (snd (handleDeleteRisk env riskId riskTitle w)))
  = filter (fun x => negb (strict_eq (id x) riskId)) (risks_table w)
  /\ (forall r,
         In r (filteredRisks (ui (snd (handleDeleteRisk env riskId riskTitle w))))
         -> id r <> riskId)
  /\ error (ui (snd (handleDeleteRisk env riskId riskTitle w))) = None
  /\ loading (ui (snd (handleDeleteRisk env riskId riskTitle w))) = false
  /\ selectedRisk (ui (snd (handleDeleteRisk env riskId riskTitle w)))
     = match selectedRisk (ui w) with
       | Some r => if strict_eq (id r) riskId then None else Some r
       | None => None
       end
  /\ (searchTerm (ui (snd (handleDeleteRisk env riskId riskTitle w))),
      filterCategory (ui (snd (handleDeleteRisk env riskId riskTitle w))),
      filterStatus (ui (snd (handleDeleteRisk env riskId riskTitle w))),
      filterRiskLevel (ui (snd (handleDeleteRisk env riskId riskTitle w))))
     = (searchTerm (ui w), filterCategory (ui w), filterStatus (ui w),
        filterRiskLevel (ui w)).
Proof.
  intros Hc Hd Hs Hf.
  destruct (select_single_normal _ riskId w Hs) as [d Hsel].
  remember (handleDeleteRisk env riskId riskTitle w) as r eqn:Er.
  unfold handleDeleteRisk in Er. rewrite Hc, Hd in Er. cbn [negb] in Er.
  unfold try_finally, try_catch in Er.
  unfold bind at 1 in Er. cbn [set_ui modify] in Er.
  unfold bind at 1 in Er. cbn [set_ui modify] in Er.
  unfold bind at 1 in Er.
  rewrite (select_single_table _ riskId w) in Er by reflexivity.
  rewrite Hsel in Er.
  unfold bind at 1 in Er. unfold delete_risk at 1 in Er.
  unfold bind at 1 in Er. cbn [modify ret] in Er.
  unfold bind at 1 in Er. cbn [ret] in Er.
  unfold bind at 1 in Er.
  match type of Er with
  | context [logAuditEvent env ?a ?i ?x ?w0] =>
      pose proof (logAuditEvent_ui env a i x w0) as (Hl1 & Hl2 & Hl3);
      destruct (logAuditEvent env a i x w0) as [c1 w1]
  end.
  cbn [fst snd ui risks_table] in Hl1, Hl2, Hl3. subst c1.
  unfold bind at 1 in Er. cbn [gets] in Er.
  unfold bind at 1 in Er. rewrite Hl2 in Er.
  assert (Hsel0 : selectedRisk (setError None (setLoading true (ui w)))
                  = selectedRisk (ui w)) by reflexivity.
  rewrite Hsel0 in Er.
  set (hit := match selectedRisk (ui w) with
              | Some r0 => strict_eq (id r0) riskId
              | None => false
              end) in Er.
  assert (Hw : when hit (set_ui (setSelectedRisk None)) w1
               = (Normal tt,
                  mkWorld (if hit then setSelectedRisk None (ui w1)
                           else ui w1)
                          (risks_table w1) (audit_logs w1)
                          (audit_requests w1) (console w1))).
  { destruct hit; [reflexivity |]. destruct w1; reflexivity. }
  rewrite Hw in Er.
  match type of Er with
  | context [fetchRisks env ?w2] =>
      pose proof (fetchRisks_accepted env w2 Hf) as (Hf1 & Hf2);
      destruct (fetchRisks env w2) as [c3 w3]
  end.
  cbn [fst snd ui risks_table] in Hf1, Hf2. subst c3.
  cbn in Er. subst r. cbn [fst snd ui]. rewrite Hf2, Hl2, Hl3.
  split; [reflexivity | split; [| split; [reflexivity | split;
    [reflexivity | split]]]].
  - intros x Hx. unfold filteredRisks in Hx. apply filter_In in Hx as [Hx _].
    cbn [risks setLoading setRisks] in Hx. apply filter_In in Hx as [_ Hx].
    apply negb_true_iff, strict_eq_false_iff in Hx. exact Hx.
  - subst hit. destruct (selectedRisk (ui w)) as [r0|] eqn:E;
      [destruct (strict_eq (id r0) riskId) |]; cbn; rewrite ?E; reflexivity.
  - destruct hit; reflexivity.
Qed.

Lemma handleDeleteRisk_refreshed_witness :
  confirm_answer (sample_env (Some "org-1")) = true
  /\ delete_reply (sample_env (Some "org-1")) = Accepted
  /\ (forall e, select_reply (sample_env (Some "org-1")) <> Thrown e)
  /\ fetch_reply (sample_env (Some "org-1")) = Accepted
  /\ risks (ui (snd (handleDeleteRisk (sample_env (Some "org-1")) "r1"
                       "Vendor outage" sample_world))) = [].
Proof.
  assert (Hs : forall e, select_reply (sample_env (Some "org-1")) <> Thrown e).
  { intros e H. cbv in H. discriminate H. }
  split; [reflexivity | split; [reflexivity | split; [exact Hs | split;
    [reflexivity |]]]].
  destruct (handleDeleteRisk_refreshed (sample_env (Some "org-1")) "r1"
              "Vendor outage" sample_world eq_refl eq_refl Hs eq_refl)
    as (Hr & _).
  rewrite Hr. reflexivity.
Defined.

End RiskHandlersFacts.

(** ** Creating and updating risks *)

Module RiskMutationsFacts.
Import JsString JsStringFacts Effects RiskManagement RiskMutations.
Local Open Scope list_scope.

Ltac run_handler :=
  unfold try_finally, try_catch, insert_risk, update_risk, on_page,
    logAuditEvent, insert_audit_log, fetchRisks, select_all, console_log,
    set_forms, set_ui, set_table, bind, modify, gets, ret, throw, try_catch,
    try_finally.

(** X11.  When the store answers the insert with a row and no error, the
    create handler returns normally whatever the audit write and the
    reload do: one insert was sent, the returned row is the newest of the
    table, the add dialog is closed and the loading flag is off.  The
    audit store is handed exactly one row when an organization scope is
    available (action risk_created, the returned row's id, title,
    category and score) and none otherwise.  After an accepted reload the
    loaded collection starts with the new row. *)
Theorem handleCreateRisk_created (wenv : WriteEnv) (formData : Json)
  (pw : PageWorld) (row : Risk) :
  write_reply wenv = Responded (Some row) None ->
  fst (handleCreateRisk wenv formData pw) = Normal tt
  /\ risk_writes (snd (handleCreateRisk wenv formData pw))
     = risk_writes pw ++ [InsertRisk (riskData_of wenv formData)]
  /\ risks_table (page (snd (handleCreateRisk wenv formData pw)))
     = row :: risks_table (page pw)
  /\ audit_requests (page (snd (handleCreateRisk wenv formData pw)))
     = audit_requests (page pw)
         ++ match or_null (env_organization_id (base_env wenv)) with
            | Some org =>
                [audit_row (base_env wenv) org "risk_created"
                           (Some (id row)) (Some (created_details row))]
            | None => []
            end
  /\ showAddForm (forms (snd (handleCreateRisk wenv formData pw))) = false
  /\ loading (ui (page (snd (handleCreateRisk wenv formData pw)))) = false
  /\ (fetch_reply (base_env wenv) = Accepted ->
      risks (ui (page (snd (handleCreateRisk wenv formData pw))))
      = row :: risks_table (page pw)).
Proof.
  intros Hw. unfold handleCreateRisk. run_handler. rewrite Hw.
  destruct (or_null (env_organization_id (base_env wenv))) as [org|];
    destruct (audit_reply (base_env wenv));
    destruct (fetch_reply (base_env wenv));
    cbn; rewrite ?app_nil_r; repeat split; intros; try reflexivity;
    discriminate.
Qed.

Lemma handleCreateRisk_created_witness :
  write_reply (sample_write_env (Some "org-1")
                 (Responded (Some stored_row) None))
  = Responded (Some stored_row) None
  /\ risks (ui (page (snd (handleCreateRisk
                             (sample_write_env (Some "org-1")
                                (Responded (Some stored_row) None))
                             sample_form sample_page))))
     = [stored_row; vendor_outage]
  /\ map action
         (audit_requests
            (page (snd (handleCreateRisk
                          (sample_write_env (Some "org-1")
                             (Responded (Some stored_row) None))
                          sample_form sample_page))))
     = ["risk_created"].
Proof.
  split; [reflexivity |].
  destruct (handleCreateRisk_created
              (sample_write_env (Some "org-1")
                 (Responded (Some stored_row) None))
              sample_form sample_page stored_row eq_refl)
    as (_ & _ & _ & Ha & _ & _ & Hr).
  split; [rewrite (Hr eq_refl); reflexivity | rewrite Ha; reflexivity].
Defined.

(** X12.  When the store answers the insert with an error, or the call
    throws, the create handler throws that same value to its caller after
    printing it: the table is as before, no audit event is emitted, the
    add dialog stays as it was, the loading flag is off, and no error
    text is stored by the handler itself. *)
Theorem handleCreateRisk_rejected (wenv : WriteEnv) (formData : Json)
  (pw : PageWorld) (e : JsError) :
  (exists data, write_reply wenv = Responded data (Some e))
  \/ write_reply wenv = WriteThrown e ->
  fst (handleCreateRisk wenv formData pw) = Abrupt e
  /\ risk_writes (snd (handleCreateRisk wenv formData pw))
     = risk_writes pw ++ [InsertRisk (riskData_of wenv formData)]
  /\ risks_table (page (snd (handleCreateRisk wenv formData pw)))
     = risks_table (page pw)
  /\ audit_requests (page (snd (handleCreateRisk wenv formData pw)))
     = audit_requests (page pw)
  /\ forms (snd (handleCreateRisk wenv formData pw)) = forms pw
  /\ risks (ui (page (snd (handleCreateRisk wenv formData pw))))
     = risks (ui (page pw))
  /\ loading (ui (page (snd (handleCreateRisk wenv formData pw)))) = false
  /\ error (ui (page (snd (handleCreateRisk wenv formData pw)))) = None
  /\ console (page (snd (handleCreateRisk wenv formData pw)))
     = console (page pw)
         ++ [mkLog LevelError "Error adding risk:" (Some e)].
Proof.
  intros Hw. unfold handleCreateRisk. run_handler.
  destruct Hw as [[data Hw] | Hw]; rewrite Hw.
  - destruct data; cbn; repeat split; reflexivity.
  - cbn. repeat split; reflexivity.
Qed.

Lemma handleCreateRisk_rejected_witness :
  ((exists data, write_reply (sample_write_env (Some "org-1")
                                (Responded None (Some write_rejected)))
                 = Responded data (Some write_rejected))
   \/ write_reply (sample_write_env (Some "org-1")
                     (Responded None (Some write_rejected)))
      = WriteThrown write_rejected)
  /\ fst (handleCreateRisk
            (sample_write_env (Some "org-1")
               (Responded None (Some write_rejected)))
            sample_form sample_page)
     = Abrupt write_rejected
  /\ showAddForm
       (forms (snd (handleCreateRisk
                      (sample_write_env (Some "org-1")
                         (Responded None (Some write_rejected)))
                      sample_form sample_page)))
     = true.
Proof.
  assert (H : (exists data,
                  write_reply (sample_write_env (Some "org-1")
                                 (Responded None (Some write_rejected)))
                  = Responded data (Some write_rejected))
              \/ write_reply (sample_write_env (Some "org-1")
                                (Responded None (Some write_rejected)))
                 = WriteThrown write_rejected).
  { left. exists None. reflexivity. }
  split; [exact H |].
  destruct (handleCreateRisk_rejected
              (sample_write_env (Some "org-1")
                 (Responded None (Some write_rejected)))
              sample_form sample_page write_rejected H)
    as (Hc & _ & _ & _ & Hf & _).
  split; [exact Hc | rewrite Hf; reflexivity].
Defined.

(** With no risk being edited the update handler does nothing. *)
Lemma handleUpdateRisk_idle (wenv : WriteEnv) (formData : Json)
  (pw : PageWorld) :
  editingRisk (forms pw) = None ->
  handleUpdateRisk wenv formData pw = (Normal tt, pw).
Proof. intros He. unfold handleUpdateRisk, bind, gets. now rewrite He. Qed.

(** X13.  When a risk is being edited and the store answers the update
    with a row and no error, the update handler returns normally: one
    update was sent, addressed to the edited risk's id and stamped with
    the current time; the returned row stands in the table for the rows
    of that id; the edit dialog is closed and the edited risk forgotten.
    With an organization scope the audit store is handed exactly one row,
    action risk_updated, whose previous status is that of the risk as it
    was opened for editing and whose new status is that of the returned
    row; with no scope it is handed none. *)
Theorem handleUpdateRisk_updated (wenv : WriteEnv) (formData : Json)
  (pw : PageWorld) (editing row : Risk) :
  editingRisk (forms pw) = Some editing ->
  write_reply wenv = Responded (Some row) None ->
  fst (handleUpdateRisk wenv formData pw) = Normal tt
  /\ risk_writes (snd (handleUpdateRisk wenv formData pw))
     = risk_writes pw
         ++ [UpdateRisk (id editing)
               (mkRiskUpdateData formData
                  (env_organization_id (base_env wenv))
                  (env_now (base_env wenv)))]
  /\ risks_table (page (snd (handleUpdateRisk wenv formData pw)))
     = map (fun x => if strict_eq (id x) (id editing) then row else x)
           (risks_table (page pw))
  /\ audit_requests (page (snd (handleUpdateRisk wenv formData pw)))
     = audit_requests (page pw)
         ++ match or_null (env_organization_id (base_env wenv)) with
            | Some org =>
                [audit_row (base_env wenv) org "risk_updated"
                   (Some (id row))
                   (Some (updated_details editing row))]
            | None => []
            end
  /\ get_field "previous_status" (updated_details editing row)
     = Some (JStr (status editing))
  /\ get_field "new_status" (updated_details editing row)
     = Some (JStr (status row))
  /\ forms (snd (handleUpdateRisk wenv formData pw))
     = mkForms (showAddForm (forms pw)) false None
  /\ loading (ui (page (snd (handleUpdateRisk wenv formData pw)))) = false.
Proof.
  intros He Hw. unfold handleUpdateRisk. run_handler. cbv beta.
  rewrite He, Hw.
  destruct (or_null (env_organization_id (base_env wenv))) as [org|];
    destruct (audit_reply (base_env wenv));
    destruct (fetch_reply (base_env wenv));
    cbn; rewrite ?app_nil_r; repeat split; reflexivity.
Qed.

Lemma handleUpdateRisk_updated_witness :
  editingRisk (forms (snd (openEditForm vendor_outage sample_page)))
  = Some vendor_outage
  /\ write_reply (sample_write_env (Some "org-1")
                    (Responded (Some mitigated_row) None))
     = Responded (Some mitigated_row) None
  /\ risks_table
       (page (snd (handleUpdateRisk
                     (sample_write_env (Some "org-1")
                        (Responded (Some mitigated_row) None))
                     sample_form
                     (snd (openEditForm vendor_outage sample_page)))))
     = [mitigated_row]
  /\ map details
         (audit_requests
            (page (snd (handleUpdateRisk
                          (sample_write_env (Some "org-1")
                             (Responded (Some mitigated_row) None))
                          sample_form
                          (snd (openEditForm vendor_outage sample_page))))))
     = [Some (JObj [("risk_title", JStr "Vendor outage");
                    ("risk_category", JStr "operational");
                    ("risk_score", JNum 12);
                    ("previous_status", JStr "assessed");
                    ("new_status", JStr "mitigated")])].
Proof.
  split; [reflexivity | split; [reflexivity |]].
  destruct (handleUpdateRisk_updated
              (sample_write_env (Some "org-1")
                 (Responded (Some mitigated_row) None))
              sample_form (snd (openEditForm vendor_outage sample_page))
              vendor_outage mitigated_row eq_refl eq_refl)
    as (_ & _ & Ht & Ha & _).
  split; [rewrite Ht; reflexivity | rewrite Ha; reflexivity].
Defined.

(** X14.  When the store answers the update with an error, or the call
    throws, the update handler throws that same value to its caller after
    printing it: the table is as before, no audit event is emitted, and
    the edit dialog stays open on the same risk, with the loading flag
    off. *)
Theorem handleUpdateRisk_rejected (wenv : WriteEnv) (formData : Json)
  (pw : PageWorld) (editing : Risk) (e : JsError) :
  editingRisk (forms pw) = Some editing ->
  (exists data, write_reply wenv = Responded data (Some e))
  \/ write_reply wenv = WriteThrown e ->
  fst (handleUpdateRisk wenv formData pw) = Abrupt e
  /\ risks_table (page (snd (handleUpdateRisk wenv formData pw)))
     = risks_table (page pw)
  /\ audit_requests (page (snd (handleUpdateRisk wenv formData pw)))
     = audit_requests (page pw)
  /\ forms (snd (handleUpdateRisk wenv formData pw)) = forms pw
  /\ risks (ui (page (snd (handleUpdateRisk wenv formData pw))))
     = risks (ui (page pw))
  /\ loading (ui (page (snd (handleUpdateRisk wenv formData pw)))) = false
  /\ console (page (snd (handleUpdateRisk wenv formData pw)))
     = console (page pw)
         ++ [mkLog LevelError "Error updating risk:" (Some e)].
Proof.
  intros He Hw. unfold handleUpdateRisk. run_handler. cbv beta.
  rewrite He.
  destruct Hw as [[data Hw] | Hw]; rewrite Hw.
  - destruct data; cbn; repeat split; reflexivity.
  - cbn. repeat split; reflexivity.
Qed.

Lemma handleUpdateRisk_rejected_witness :
  editingRisk (forms (snd (openEditForm vendor_outage sample_page)))
  = Some vendor_outage
  /\ write_reply (sample_write_env (Some "org-1") (WriteThrown write_rejected))
     = WriteThrown write_rejected
  /\ fst (handleUpdateRisk
            (sample_write_env (Some "org-1") (WriteThrown write_rejected))
            sample_form (snd (openEditForm vendor_outage sample_page)))
     = Abrupt write_rejected
  /\ forms (snd (handleUpdateRisk
                   (sample_write_env (Some "org-1")
                      (WriteThrown write_rejected))
                   sample_form
                   (snd (openEditForm vendor_outage sample_page))))
     = mkForms true true (Some vendor_outage).
Proof.
  split; [reflexivity | split; [reflexivity |]].
  destruct (handleUpdateRisk_rejected
              (sample_write_env (Some "org-1") (WriteThrown write_rejected))
              sample_form (snd (openEditForm vendor_outage sample_page))
              vendor_outage write_rejected eq_refl (or_intror eq_refl))
    as (Hc & _ & _ & Hf & _).
  split; [exact Hc | rewrite Hf; reflexivity].
Defined.

End RiskMutationsFacts.

(** ** The asset form on its other paths *)

Module AddAssetFormMoreFacts.
Import JsString Effects AddAssetForm AddAssetFormFacts AddAssetFormEnv.
Local Open Scope list_scope.

Lemma truthy_false_iff (s : string) : truthy s = false <-> s = "".
Proof.
  unfold truthy. rewrite negb_false_iff. apply String.eqb_eq.
Qed.

(** The required-field test fails exactly when the name, the city, the
    country or the officer's name is empty. *)
Lemma missing_required_iff (formData : FormData) :
  missing_required formData = true
  <-> form_name formData = ""
      \/ city (form_location formData) = ""
      \/ country (form_location formData) = ""
      \/ officer_name (form_responsible_officer formData) = "".
Proof.
  unfold missing_required.
  rewrite !orb_true_iff, !negb_true_iff, !truthy_false_iff. tauto.
Qed.

(** X15.  When the asset name, the city, the country or the officer's
    name is empty, the submit handler writes nothing: onSubmit is not
    called, the estimator is not consulted (nothing is printed, the
    scoring indicator is untouched), the error reads "Please fill in all
    required fields" and the handler returns normally with the loading
    flag off. *)
Theorem handleSubmit_missing_required (env : Env) (formData : FormData)
  (ms : list AppliedMitigation) (w : World) :
  form_name formData = ""
  \/ city (form_location formData) = ""
  \/ country (form_location formData) = ""
  \/ officer_name (form_responsible_officer formData) = "" ->
  fst (handleSubmit env formData ms w) = Normal tt
  /\ submitted (snd (handleSubmit env formData ms w)) = submitted w
  /\ console (snd (handleSubmit env formData ms w)) = console w
  /\ aiScoring (snd (handleSubmit env formData ms w)) = aiScoring w
  /\ error (snd (handleSubmit env formData ms w))
     = Some "Please fill in all required fields"
  /\ loading (snd (handleSubmit env formData ms w)) = false.
Proof.
  intros H. apply missing_required_iff in H.
  rewrite handleSubmit_run, H. repeat split.
Qed.

Lemma handleSubmit_missing_required_witness :
  (form_name (with_name "" sample_form) = ""
   \/ city (form_location (with_name "" sample_form)) = ""
   \/ country (form_location (with_name "" sample_form)) = ""
   \/ officer_name (form_responsible_officer (with_name "" sample_form)) = "")
  /\ submitted (snd (handleSubmit (sample_env (Scored sample_result))
                                  (with_name "" sample_form) [fence]
                                  sample_world)) = []
  /\ error (snd (handleSubmit (sample_env (Scored sample_result))
                              (with_name "" sample_form) [fence]
                              sample_world))
     = Some "Please fill in all required fields".
Proof.
  assert (H : form_name (with_name "" sample_form) = ""
              \/ city (form_location (with_name "" sample_form)) = ""
              \/ country (form_location (with_name "" sample_form)) = ""
              \/ officer_name
                   (form_responsible_officer (with_name "" sample_form)) = "")
    by (left; reflexivity).
  split; [exact H |].
  destruct (handleSubmit_missing_required (sample_env (Scored sample_result))
              (with_name "" sample_form) [fence] sample_world H)
    as (_ & Hs & _ & _ & He & _).
  split; [rewrite Hs; reflexivity | rewrite He; reflexivity].
Defined.

(** X16.  The submit handler never throws and always ends with the
    loading flag off.  It calls onSubmit at most once, and exactly once
    when the name, city, country and officer's name are all non-empty,
    whatever the estimator does; it prints at most one console line. *)
Theorem handleSubmit_total (env : Env) (formData : FormData)
  (ms : list AppliedMitigation) (w : World) :
  fst (handleSubmit env formData ms w) = Normal tt
  /\ loading (snd (handleSubmit env formData ms w)) = false
  /\ submitted (snd (handleSubmit env formData ms w))
     = submitted w ++ submittedBy env formData ms w
  /\ (List.length (submittedBy env formData ms w) <= 1)%nat
  /\ (List.length (submittedBy env formData ms w) = 1%nat
      <-> form_name formData <> ""
          /\ city (form_location formData) <> ""
          /\ country (form_location formData) <> ""
          /\ officer_name (form_responsible_officer formData) <> "")
  /\ (exists lines,
         console (snd (handleSubmit env formData ms w)) = console w ++ lines
         /\ (List.length lines <= 1)%nat).
Proof.
  rewrite submittedBy_run, handleSubmit_run.
  pose proof (missing_required_iff formData) as Hm.
  destruct (missing_required formData) eqn:E; cbn [fst snd loading submitted
    console List.length].
  - split; [reflexivity | split; [reflexivity | split;
      [now rewrite app_nil_r | split; [lia | split]]]].
    + split; [discriminate |].
      intros (H1 & H2 & H3 & H4). destruct Hm as [Hm _].
      destruct (Hm eq_refl) as [H|[H|[H|H]]]; contradiction.
    + exists []. rewrite app_nil_r. split; [reflexivity | simpl; lia].
  - split; [reflexivity | split; [reflexivity | split;
      [reflexivity | split; [lia | split]]]].
    + split; [intros _ | reflexivity].
      repeat split; intros H;
        assert (Ht : false = true) by (apply Hm; tauto); discriminate Ht.
    + destruct (estimator_reply env); eexists; split; try reflexivity;
        simpl; lia.
Qed.

(** X17.  When the required fields are present and onSubmit rejects, the
    handler still returns normally with the loading flag off; the record
    was handed to onSubmit once, and the error shown is the rejection's
    message, or "Failed to add asset" when the rejection is not an Error
    object. *)
Theorem handleSubmit_onSubmit_rejects (env : Env) (formData : FormData)
  (ms : list AppliedMitigation) (w : World) (err : JsError) :
  missing_required formData = false ->
  onSubmit_reply env = Some err ->
  fst (handleSubmit env formData ms w) = Normal tt
  /\ submittedBy env formData ms w
     = [finalAssetData env formData ms (baseScoreOf env formData)]
  /\ error (snd (handleSubmit env formData ms w))
     = Some (if instanceof_Error err then message err
             else "Failed to add asset")
  /\ loading (snd (handleSubmit env formData ms w)) = false.
Proof.
  intros Hv Hr. rewrite submittedBy_run, handleSubmit_run, Hv, Hr.
  repeat split.
Qed.

Lemma handleSubmit_onSubmit_rejects_witness :
  missing_required sample_form = false
  /\ onSubmit_reply (with_onSubmit_reply (Some submit_refused)
                       (sample_env (Scored sample_result)))
     = Some submit_refused
  /\ error (snd (handleSubmit
                   (with_onSubmit_reply (Some submit_refused)
                      (sample_env (Scored sample_result)))
                   sample_form [fence] sample_world))
     = Some "Failed to add asset".
Proof.
  split; [reflexivity | split; [reflexivity |]].
  destruct (handleSubmit_onSubmit_rejects
              (with_onSubmit_reply (Some submit_refused)
                 (sample_env (Scored sample_result)))
              sample_form [fence] sample_world submit_refused
              eq_refl eq_refl)
    as (_ & _ & He & _).
  rewrite He. reflexivity.
Defined.

(** *** Mitigation sums *)

Lemma sum_reductions_app (ms ms' : list AppliedMitigation) :
  sum_reductions (ms ++ ms') = sum_reductions ms + sum_reductions ms'.
Proof. induction ms as [|m ms IH]; simpl; lia. Qed.

Lemma sum_reductions_perm (ms ms' : list AppliedMitigation) :
  Permutation ms ms' -> sum_reductions ms = sum_reductions ms'.
Proof. induction 1; simpl; lia. Qed.

Lemma sum_reductions_nonneg (ms : list AppliedMitigation) :
  Forall (fun m => 0 <= applied_risk_reduction_score m) ms ->
  0 <= sum_reductions ms.
Proof. induction 1; simpl; lia. Qed.

(** X18.  The total reduction and the effective score do not depend on
    the order of the mitigations; the total of two lists put together is
    the sum of their totals, so a mitigation listed twice counts twice. *)
Theorem totalRiskReduction_order_independent (aiRiskScore : AiRiskScore)
  (ms ms' : list AppliedMitigation) :
  Permutation ms ms' ->
  totalRiskReductionOf ms = totalRiskReductionOf ms'
  /\ effectiveRiskScore aiRiskScore ms = effectiveRiskScore aiRiskScore ms'
  /\ totalRiskReductionOf (ms ++ ms')
     = totalRiskReductionOf ms + totalRiskReductionOf ms'
  /\ (forall m, totalRiskReductionOf (m :: m :: ms)
                = 2 * applied_risk_reduction_score m
                  + totalRiskReductionOf ms).
Proof.
  intros Hp. apply sum_reductions_perm in Hp. unfold effectiveRiskScore.
  split; [| split; [| split]].
  - rewrite !totalRiskReductionOf_sum. exact Hp.
  - rewrite !totalRiskReductionOf_sum. now rewrite Hp.
  - rewrite !totalRiskReductionOf_sum. apply sum_reductions_app.
  - intros m. rewrite !totalRiskReductionOf_sum. cbn [sum_reductions]. lia.
Qed.

Lemma totalRiskReduction_order_independent_witness :
  Permutation [fence; patrol] [patrol; fence]
  /\ totalRiskReductionOf [fence; patrol] = 25
  /\ totalRiskReductionOf [patrol; fence] = 25.
Proof.
  assert (Hp : Permutation [fence; patrol] [patrol; fence])
    by apply perm_swap.
  split; [exact Hp |].
  destruct (totalRiskReduction_order_independent
              (form_ai_risk_score sample_form) _ _ Hp) as (H & _).
  split; [reflexivity | rewrite <- H; reflexivity].
Defined.

(** X19.  Mitigations with non-negative reduction values never raise the
    score: the effective score is at most the base score floored at 0,
    and applying further such mitigations never increases it. *)
Theorem effectiveRiskScore_antitone (aiRiskScore : AiRiskScore)
  (ms more : list AppliedMitigation) :
  Forall (fun m => 0 <= applied_risk_reduction_score m) ms ->
  Forall (fun m => 0 <= applied_risk_reduction_score m) more ->
  effectiveRiskScore aiRiskScore ms <= Z.max 0 (overall aiRiskScore)
  /\ effectiveRiskScore aiRiskScore (ms ++ more)
     <= effectiveRiskScore aiRiskScore ms.
Proof.
  intros H1 H2. unfold effectiveRiskScore.
  rewrite !totalRiskReductionOf_sum, sum_reductions_app.
  apply sum_reductions_nonneg in H1, H2. lia.
Qed.

Lemma effectiveRiskScore_antitone_witness :
  Forall (fun m => 0 <= applied_risk_reduction_score m) [fence]
  /\ Forall (fun m => 0 <= applied_risk_reduction_score m) [patrol]
  /\ effectiveRiskScore (form_ai_risk_score sample_form) [fence; patrol]
     <= effectiveRiskScore (form_ai_risk_score sample_form) [fence].
Proof.
  assert (H1 : Forall (fun m => 0 <= applied_risk_reduction_score m) [fence])
    by (repeat constructor; simpl; lia).
  assert (H2 : Forall (fun m => 0 <= applied_risk_reduction_score m) [patrol])
    by (repeat constructor; simpl; lia).
  split; [exact H1 | split; [exact H2 |]].
  apply (effectiveRiskScore_antitone (form_ai_risk_score sample_form)
           [fence] [patrol] H1 H2).
Defined.

(** X20.  The mitigation flag of a submitted record follows the total
    reduction, not the list: it is true exactly when the total is
    positive, and whenever it is true the record carries the non-empty
    mitigation list. *)
Theorem mitigationApplied_needs_list (env : Env) (formData : FormData)
  (ms : list AppliedMitigation) (aiRiskScore : AiRiskScore) :
  mitigationApplied (ai_risk_score (finalAssetData env formData ms aiRiskScore))
  = Some true ->
  0 < sum_reductions ms
  /\ ms <> []
  /\ mitigations (finalAssetData env formData ms aiRiskScore) = Some ms.
Proof.
  cbn. rewrite totalRiskReductionOf_sum. intros H.
  injection H as H. apply Z.ltb_lt in H.
  destruct ms as [|m ms]; [simpl in H; lia |].
  repeat split; [exact H | discriminate].
Qed.

Lemma mitigationApplied_needs_list_witness :
  mitigationApplied
    (ai_risk_score (finalAssetData (sample_env (Scored sample_result))
                      sample_form [fence]
                      (form_ai_risk_score sample_form)))
  = Some true
  /\ mitigations (finalAssetData (sample_env (Scored sample_result))
                    sample_form [fence] (form_ai_risk_score sample_form))
     = Some [fence].
Proof.
  split; [reflexivity |].
  apply (mitigationApplied_needs_list (sample_env (Scored sample_result))
           sample_form [fence] (form_ai_risk_score sample_form) eq_refl).
Defined.

(** X21.  When the required fields are present and the estimator answers,
    nothing is printed and the one submitted record is built from the
    answer: its original score is the estimator's score, its overall
    score that score less the total reduction, floored at 0, its
    explanation the estimator's; its trend is never the empty text, and
    the components are the estimator's, or the form's when it sent
    none. *)
Theorem handleSubmit_estimator_answers (env : Env) (formData : FormData)
  (ms : list AppliedMitigation) (w : World) (r : AiResult) :
  missing_required formData = false ->
  estimator_reply env = Scored r ->
  console (snd (handleSubmit env formData ms w)) = console w
  /\ exists a,
       submittedBy env formData ms w = [a]
       /\ originalScore (ai_risk_score a) = Some (score r)
       /\ overall (ai_risk_score a) = Z.max 0 (score r - sum_reductions ms)
       /\ explanation (ai_risk_score a) = result_explanation r
       /\ trend (ai_risk_score a) <> ""
       /\ components (ai_risk_score a)
          = match result_components r with
            | Some c => c
            | None => components (form_ai_risk_score formData)
            end.
Proof.
  intros Hv Hr. rewrite submittedBy_run, handleSubmit_run, Hv, Hr.
  unfold baseScoreOf. rewrite Hr. cbn [snd console].
  split; [now rewrite app_nil_r |].
  eexists. split; [reflexivity |]. cbn.
  unfold effectiveRiskScore. rewrite totalRiskReductionOf_sum. cbn.
  repeat split.
  unfold or_default. destruct (result_trend r) as [t|]; [|discriminate].
  destruct (truthy t) eqn:Et; [|discriminate].
  unfold truthy in Et. apply negb_true_iff, String.eqb_neq in Et. exact Et.
Qed.

Lemma handleSubmit_estimator_answers_witness :
  missing_required sample_form = false
  /\ estimator_reply (sample_env (Scored sample_result)) = Scored sample_result
  /\ map (fun a => (overall (ai_risk_score a), originalScore (ai_risk_score a),
                    trend (ai_risk_score a)))
         (submittedBy (sample_env (Scored sample_result)) sample_form
                      [fence; patrol] sample_world)
     = [(15, Some 40, "stable")].
Proof.
  split; [reflexivity | split; [reflexivity |]].
  destruct (handleSubmit_estimator_answers (sample_env (Scored sample_result))
              sample_form [fence; patrol] sample_world sample_result
              eq_refl eq_refl) as (_ & a & Ha & _).
  rewrite Ha. rewrite submittedBy_run in Ha. injection Ha as <-. reflexivity.
Defined.

End AddAssetFormMoreFacts.

(** ** Authorized personnel *)

Module AssetPersonnelFacts.
Import JsString JsStringFacts AssetPersonnel.
Local Open Scope list_scope.

Lemma includes_id_iff (authorized : list string) (x : string) :
  includes_id authorized x = true <-> In x authorized.
Proof.
  unfold includes_id. rewrite existsb_exists. split.
  - intros [y [Hy E]]. apply strict_eq_iff in E. now subst.
  - intros H. exists x. split; [exact H | now apply strict_eq_iff].
Qed.

Lemma removePersonnel_In (personnelId x : string) (authorized : list string) :
  In x (removePersonnel personnelId authorized)
  <-> In x authorized /\ x <> personnelId.
Proof.
  unfold removePersonnel.
  now rewrite filter_In, negb_true_iff, strict_eq_false_iff.
Qed.

Lemma removePersonnel_absent (personnelId : string) (authorized : list string) :
  ~ In personnelId authorized ->
  removePersonnel personnelId authorized = authorized.
Proof.
  unfold removePersonnel. induction authorized as [|y l IH]; simpl;
    [reflexivity |].
  intros H. destruct (strict_eq y personnelId) eqn:E; simpl.
  - apply strict_eq_iff in E. exfalso. apply H. now left.
  - f_equal. apply IH. intros Hin. apply H. now right.
Qed.

(** X22.  The search results and the list of selected persons never
    overlap, a person is in the selected list exactly when their id is
    authorized, and with an empty search term the two lists together
    account for every person once. *)
Theorem personnel_lists_partition (allPersonnel : list PersonnelDetail)
  (personnelSearchTerm : string) (authorized : list string) :
  (forall person,
      In person (filteredPersonnel allPersonnel personnelSearchTerm authorized)
      -> ~ In person (selectedPersonnel allPersonnel authorized))
  /\ (forall person,
         In person (selectedPersonnel allPersonnel authorized)
         <-> In person allPersonnel /\ In (person_id person) authorized)
  /\ (List.length (filteredPersonnel allPersonnel "" authorized)
      + List.length (selectedPersonnel allPersonnel authorized)
      = List.length allPersonnel)%nat.
Proof.
  split; [| split].
  - intros person Hf Hs. unfold filteredPersonnel, selectedPersonnel in *.
    apply filter_In in Hf as [_ Hf]. apply filter_In in Hs as [_ Hs].
    apply andb_true_iff in Hf as [_ Hf]. rewrite Hs in Hf. discriminate.
  - intros person. unfold selectedPersonnel.
    now rewrite filter_In, includes_id_iff.
  - assert (Hf : filteredPersonnel allPersonnel "" authorized
                 = filter (fun person =>
                             negb (includes_id authorized (person_id person)))
                          allPersonnel).
    { unfold filteredPersonnel. apply filter_ext. intros person.
      cbn [toLowerCase]. now rewrite !includes_empty. }
    rewrite Hf. clear Hf. unfold selectedPersonnel.
    induction allPersonnel as [|p l IH]; [reflexivity |].
    cbn [filter]. destruct (includes_id authorized (person_id p));
      cbn [negb List.length]; lia.
Qed.

(** X23.  Adding a person offered by the search results keeps the
    authorized list free of duplicates, moves the person into the
    selected list and takes them out of the search results. *)
Theorem addPersonnel_from_results (allPersonnel : list PersonnelDetail)
  (personnelSearchTerm : string) (authorized : list string)
  (person : PersonnelDetail) :
  NoDup authorized ->
  In person (filteredPersonnel allPersonnel personnelSearchTerm authorized) ->
  NoDup (addPersonnel (person_id person) authorized)
  /\ In person (selectedPersonnel allPersonnel
                  (addPersonnel (person_id person) authorized))
  /\ ~ In person (filteredPersonnel allPersonnel personnelSearchTerm
                    (addPersonnel (person_id person) authorized)).
Proof.
  intros Hn Hf. unfold filteredPersonnel in Hf.
  apply filter_In in Hf as [Hall Hf].
  apply andb_true_iff in Hf as [_ Hf]. apply negb_true_iff in Hf.
  assert (Hnot : ~ In (person_id person) authorized).
  { intros H. apply includes_id_iff in H. congruence. }
  assert (Hin : includes_id (addPersonnel (person_id person) authorized)
                            (person_id person) = true).
  { apply includes_id_iff. unfold addPersonnel. apply in_or_app.
    right. now left. }
  split; [| split].
  - unfold addPersonnel. apply NoDup_app; [exact Hn | | ].
    + repeat constructor. intros [].
    + intros x Hx [Hx'|[]]. subst. contradiction.
  - unfold selectedPersonnel. apply filter_In. now split.
  - unfold filteredPersonnel. rewrite filter_In, Hin, andb_false_r.
    intros [_ H]. discriminate.
Qed.

Lemma addPersonnel_from_results_witness :
  NoDup ["p2"]
  /\ In guard_a (filteredPersonnel [guard_a; guard_b] "berg" ["p2"])
  /\ selectedPersonnel [guard_a; guard_b] (addPersonnel "p1" ["p2"])
     = [guard_a; guard_b]
  /\ NoDup (addPersonnel (person_id guard_a) ["p2"]).
Proof.
  assert (Hn : NoDup ["p2"]) by (repeat constructor; intros []).
  assert (Hf : In guard_a (filteredPersonnel [guard_a; guard_b] "berg" ["p2"]))
    by (left; reflexivity).
  split; [exact Hn | split; [exact Hf | split; [reflexivity |]]].
  apply (addPersonnel_from_results [guard_a; guard_b] "berg" ["p2"] guard_a
           Hn Hf).
Defined.

(** X24.  Removing an id takes every occurrence of it out of the
    authorized list and leaves every other id in place; removing right
    after adding an id that was not authorized gives back the list as it
    was. *)
Theorem removePersonnel_after_add (personnelId : string)
  (authorized : list string) :
  ~ In personnelId (removePersonnel personnelId authorized)
  /\ (forall x, x <> personnelId ->
                (In x (removePersonnel personnelId authorized)
                 <-> In x authorized))
  /\ removePersonnel personnelId (addPersonnel personnelId authorized)
     = removePersonnel personnelId authorized
  /\ (~ In personnelId authorized ->
      removePersonnel personnelId (addPersonnel personnelId authorized)
      = authorized).
Proof.
  assert (Hadd : removePersonnel personnelId
                   (addPersonnel personnelId authorized)
                 = removePersonnel personnelId authorized).
  { unfold removePersonnel, addPersonnel. rewrite filter_app. simpl.
    unfold strict_eq. rewrite String.eqb_refl. simpl. apply app_nil_r. }
  split; [| split; [| split]].
  - intros H. apply removePersonnel_In in H. tauto.
  - intros x Hx. rewrite removePersonnel_In. tauto.
  - exact Hadd.
  - intros H. rewrite Hadd. now apply removePersonnel_absent.
Qed.

End AssetPersonnelFacts.

(** ** The route guard *)

Module ProtectedRouteFacts.
Import JsString ProtectedRoute.

Lemma truthy_iff (s : string) : truthy s = true <-> s <> "".
Proof. unfold truthy. rewrite negb_true_iff. apply String.eqb_neq. Qed.

Lemma account_locked_iff (clock : Clock) (p : Profile) :
  account_locked clock p = true <-> LockedAt clock p.
Proof.
  unfold account_locked, LockedAt.
  destruct (account_locked_until p) as [s|].
  - rewrite andb_true_iff, truthy_iff.
    destruct (parse_date clock s) as [t|] eqn:Et.
    + rewrite Z.ltb_lt. split.
      * intros [H1 H2]. now exists s, t.
      * intros (s' & t' & E1 & H1 & E2 & H2).
        injection E1 as <-. rewrite Et in E2. injection E2 as <-. now split.
    + split; [intros [_ H]; discriminate |].
      intros (s' & t' & E1 & _ & E2 & _). injection E1 as <-. congruence.
  - split; [discriminate |]. intros (s & t & E & _). discriminate.
Qed.

Lemma permission_ok_iff (props : ProtectedRouteProps) (auth : Auth) :
  string_truthy (requiredPermission props)
  && negb (match requiredPermission props with
           | Some perm => hasPermission auth perm
           | None => false
           end) = false
  <-> PermissionOk props auth.
Proof.
  unfold PermissionOk, string_truthy.
  destruct (requiredPermission props) as [perm|]; simpl.
  - rewrite andb_false_iff, negb_false_iff. split.
    + intros [H|H] q E Hq; injection E as <-; [|exact H].
      apply truthy_iff in Hq. congruence.
    + intros H. destruct (truthy perm) eqn:Et; [right | now left].
      apply H; [reflexivity | now apply truthy_iff].
  - split; [intros _ q E; discriminate | reflexivity].
Qed.

Lemma role_ok_iff (props : ProtectedRouteProps) (auth : Auth) :
  role_truthy (requiredRole props)
  && negb (match requiredRole props with
           | Some r => hasRole auth r
           | None => false
           end) = false
  <-> RoleOk props auth.
Proof.
  unfold RoleOk, role_truthy.
  destruct (requiredRole props) as [[s|rs]|]; simpl.
  - rewrite andb_false_iff, negb_false_iff. split.
    + intros [H|H] q E Hq; injection E as <-; [|exact H].
      specialize (Hq s eq_refl). apply truthy_iff in Hq. congruence.
    + intros H. destruct (truthy s) eqn:Et; [right | now left].
      apply H; [reflexivity |]. intros s' E. injection E as <-.
      now apply truthy_iff.
  - rewrite negb_false_iff. split.
    + intros H q E _. now injection E as <-.
    + intros H. apply H; [reflexivity | intros s E; discriminate].
  - split; [intros _ q E; discriminate | reflexivity].
Qed.

(** X25.  The guard renders the protected children exactly when the
    session has finished loading, a user is signed in, the profile is
    present, the account is not locked, and every requirement that is
    given holds: the permission if one is named, the role if one is
    named (an empty role list still counts as named). *)
Theorem ProtectedRoute_children_iff (props : ProtectedRouteProps)
  (auth : Auth) (clock : Clock) (location : string) :
  ProtectedRoute props auth clock location = Children (children props)
  <-> loading auth = false
      /\ user auth <> None
      /\ (exists p, profile auth = Some p /\ ~ LockedAt clock p)
      /\ PermissionOk props auth
      /\ RoleOk props auth.
Proof.
  unfold ProtectedRoute.
  rewrite <- permission_ok_iff, <- role_ok_iff.
  destruct (loading auth).
  { split; [discriminate | intros [H _]; discriminate]. }
  destruct (user auth) as [u|].
  2:{ split; [discriminate | intros (_ & H & _); now destruct H]. }
  destruct (profile auth) as [p|].
  2:{ split; [discriminate | intros (_ & _ & [p [H _]] & _); discriminate]. }
  destruct (account_locked clock p) eqn:El.
  { split; [discriminate |].
    intros (_ & _ & [p' [E H]] & _). injection E as <-.
    exfalso. apply H. now apply account_locked_iff. }
  assert (Hnl : ~ LockedAt clock p).
  { intros H. apply account_locked_iff in H. congruence. }
  destruct (string_truthy (requiredPermission props)
            && negb (match requiredPermission props with
                     | Some perm => hasPermission auth perm
                     | None => false
                     end)) eqn:Ep.
  { split; [| intros (_ & _ & _ & H & _); discriminate].
    destruct (fallback props) as [n|]; [destruct (node_truthy (Some n)) |];
      discriminate. }
  destruct (role_truthy (requiredRole props)
            && negb (match requiredRole props with
                     | Some r => hasRole auth r
                     | None => false
                     end)) eqn:Er.
  { split; [| intros (_ & _ & _ & _ & H); discriminate].
    destruct (fallback props) as [n|]; [destruct (node_truthy (Some n)) |];
      discriminate. }
  split; [intros _ | reflexivity].
  repeat split; try discriminate. now exists p.
Qed.

(** X26.  The lock screen is shown exactly to a signed-in user with a
    profile whose lock date is given, readable and strictly later than
    now, and it is shown before any permission or role is looked at: a
    lock date that is missing, empty, unreadable, in the past or equal to
    now never blocks. *)
Theorem ProtectedRoute_locked_iff (props : ProtectedRouteProps)
  (auth : Auth) (clock : Clock) (location : string) :
  ProtectedRoute props auth clock location = AccountLocked
  <-> loading auth = false
      /\ user auth <> None
      /\ exists p, profile auth = Some p /\ LockedAt clock p.
Proof.
  unfold ProtectedRoute.
  destruct (loading auth).
  { split; [discriminate | intros [H _]; discriminate]. }
  destruct (user auth) as [u|].
  2:{ split; [discriminate | intros (_ & H & _); now destruct H]. }
  destruct (profile auth) as [p|].
  2:{ split; [discriminate | intros (_ & _ & [p [H _]]); discriminate]. }
  destruct (account_locked clock p) eqn:El.
  { split; [intros _ | reflexivity].
    repeat split; try discriminate. exists p.
    split; [reflexivity | now apply account_locked_iff]. }
  split.
  - destruct (_ && _);
      [destruct (fallback props) as [n|];
         [destruct (node_truthy (Some n)) |]; discriminate |].
    destruct (_ && _);
      [destruct (fallback props) as [n|];
         [destruct (node_truthy (Some n)) |]; discriminate |].
    discriminate.
  - intros (_ & _ & [p' [E H]]). injection E as <-.
    apply account_locked_iff in H. congruence.
Qed.

(** X27.  The fallback is rendered only in place of a denial: when it is
    shown it is the node given as fallback, the user is signed in with a
    profile and not locked, and the required permission or the required
    role is not held.  It is never shown while loading, to a visitor who
    is not signed in, or to a locked account. *)
Theorem ProtectedRoute_fallback_only_on_denial (props : ProtectedRouteProps)
  (auth : Auth) (clock : Clock) (location : string) (n : Node) :
  ProtectedRoute props auth clock location = Fallback n ->
  fallback props = Some n
  /\ loading auth = false
  /\ user auth <> None
  /\ (exists p, profile auth = Some p /\ ~ LockedAt clock p)
  /\ (~ PermissionOk props auth \/ ~ RoleOk props auth).
Proof.
  unfold ProtectedRoute.
  rewrite <- permission_ok_iff, <- role_ok_iff.
  destruct (loading auth); [discriminate |].
  destruct (user auth) as [u|]; [|discriminate].
  destruct (profile auth) as [p|]; [|discriminate].
  destruct (account_locked clock p) eqn:El; [discriminate |].
  assert (Hnl : ~ LockedAt clock p).
  { intros H. apply account_locked_iff in H. congruence. }
  destruct (string_truthy (requiredPermission props)
            && negb (match requiredPermission props with
                     | Some perm => hasPermission auth perm
                     | None => false
                     end)) eqn:Ep.
  { destruct (fallback props) as [m|]; [|discriminate].
    destruct (node_truthy (Some m)); [|discriminate].
    intros H. injection H as <-.
    repeat split; try discriminate; [now exists p | left; discriminate]. }
  destruct (role_truthy (requiredRole props)
            && negb (match requiredRole props with
                     | Some r => hasRole auth r
                     | None => false
                     end)) eqn:Er.
  { destruct (fallback props) as [m|]; [|discriminate].
    destruct (node_truthy (Some m)); [|discriminate].
    intros H. injection H as <-.
    repeat split; try discriminate; [now exists p | right; discriminate]. }
  discriminate.
Qed.

Lemma ProtectedRoute_fallback_only_on_denial_witness :
  ProtectedRoute (mkProps (Element "Page") (Some "risks.delete") None
                          (Some (Element "ReadOnly")))
                 (member None) (epoch_clock 50) "/risks"
  = Fallback (Element "ReadOnly")
  /\ fallback (mkProps (Element "Page") (Some "risks.delete") None
                       (Some (Element "ReadOnly")))
     = Some (Element "ReadOnly").
Proof.
  split; [reflexivity |].
  apply (ProtectedRoute_fallback_only_on_denial
           (mkProps (Element "Page") (Some "risks.delete") None
                    (Some (Element "ReadOnly")))
           (member None) (epoch_clock 50) "/risks" (Element "ReadOnly")
           eq_refl).
Defined.

End ProtectedRouteFacts.
